(** * A 16-bit single-accumulator machine (CPU.cpp)

    Shallow embedding of the simulator in [CPU.cpp]: the arithmetic unit
    ([ALU]), the byte memory with big-endian word access ([Memory]), the
    registers, the fetch/execute cycle of [CPU] and the program loader
    [loadProgram].

    Conventions.
    - A [uint16_t], [uint8_t] or [int] of the program is a [Z]; every
      conversion the C++ code performs implicitly is written out with
      [uint16_t], [uint8_t] and [int] below.
    - A C++ exception is a value of [exception]; code that may throw returns
      a [Result].  Code that mutates the machine is a function from the
      state to a [Result] and the state at the point where it returned or
      threw, so that what a failing call leaves behind can be stated.
    - Console output ([std::cout], [std::cerr]) is not part of the state. *)

From Stdlib Require Import ZArith Lia String Ascii.
From stdpp Require Import base list.

Local Open Scope Z_scope.

(** ** Machine integers *)

(** Conversion to [uint16_t]: reduction modulo 2^16. *)
Definition uint16_t (x : Z) : Z := x mod 2 ^ 16.

(** Conversion to [uint8_t]: reduction modulo 2^8. *)
Definition uint8_t (x : Z) : Z := x mod 2 ^ 8.

(** A result of [int] arithmetic (32 bits, two's complement wrap-around).
    Operands of type [uint16_t] are promoted to [int] before [+], [*], [/]
    and [%]; only [0xFFFF * 0xFFFF]-sized products leave the [int] range. *)
Definition int (x : Z) : Z := (x + 2 ^ 31) mod 2 ^ 32 - 2 ^ 31.

Definition INT_MIN : Z := - 2 ^ 31.
Definition INT_MAX : Z := 2 ^ 31 - 1.

(** ** Exceptions and results *)

(** The exceptions the program throws.
    - [OutOfRange]: the [std::out_of_range] of [Memory];
    - [DivisionByZero]: the [std::runtime_error] of [ALU::div], [ALU::mod];
    - [UnknownOpcode]: the [std::runtime_error] of [CPU::execute];
    - [InvalidArgument], [StoiOutOfRange]: the [std::invalid_argument] and
      [std::out_of_range] of [std::stoi]. *)
Inductive exception : Type :=
  | OutOfRange
  | DivisionByZero
  | UnknownOpcode
  | InvalidArgument
  | StoiOutOfRange.

Inductive Result (A : Type) : Type :=
  | Ok (a : A)
  | Throw (e : exception).
Arguments Ok {A} a.
Arguments Throw {A} e.

(** ** ALU *)

Module ALU.

Definition add (a b : Z) : Z := uint16_t (int (a + b)).

Definition mul (a b : Z) : Z := uint16_t (int (a * b)).

Definition div (a b : Z) : Result Z :=
  if b =? 0 then Throw DivisionByZero
  else Ok (uint16_t (int (Z.quot a b))).

(** [ALU::mod]. *)
Definition mod_ (a b : Z) : Result Z :=
  if b =? 0 then Throw DivisionByZero
  else Ok (uint16_t (int (Z.rem a b))).

End ALU.

(** ** Memory *)

Definition MEM_SIZE : Z := 4096.

Record Memory : Type := mkMemory {
  mpt : Z;           (* memory pointer, never used by the program *)
  mem : list Z       (* the byte cells *)
}.

(** [Memory()]: [MEM_SIZE] cells, all zero. *)
Definition Memory_new : Memory :=
  {| mpt := 0; mem := replicate (Z.to_nat MEM_SIZE) 0 |}.

(** [mem[i]] as an rvalue. *)
Definition cell (m : Memory) (i : Z) : Z := mem m !!! Z.to_nat i.

(** [mem[i] = b]. *)
Definition set_cell (m : Memory) (i : Z) (b : Z) : Memory :=
  {| mpt := mpt m; mem := <[Z.to_nat i := uint8_t b]> (mem m) |}.

Definition readWord (m : Memory) (address : Z) : Result Z :=
  if (address <? 0) || (address >=? MEM_SIZE - 1) then Throw OutOfRange
  else Ok (uint16_t (Z.lor (Z.shiftl (cell m address) 8) (cell m (address + 1)))).

(** [writeWord] returns the memory after the call; when it throws, nothing
    has been written. *)
Definition writeWord (m : Memory) (address : Z) (value : Z) : Result Memory :=
  if (address <? 0) || (address >=? MEM_SIZE - 1) then Throw OutOfRange
  else
    let m1 := set_cell m address (Z.land (Z.shiftr value 8) 255) in
    let m2 := set_cell m1 (address + 1) (Z.land value 255) in
    Ok m2.

(** The representation invariant of [Memory]: the vector has [MEM_SIZE]
    cells (it is never resized). *)
Definition Memory_wf (m : Memory) : Prop :=
  Z.of_nat (length (mem m)) = MEM_SIZE.

(** ** Register *)

Record Register : Type := mkRegister { value : Z }.

Definition Register_new : Register := {| value := 0 |}.
Definition read (r : Register) : Z := value r.
Definition write (val : Z) : Register := {| value := uint16_t val |}.

(** ** CPU *)

(** The state a [CPU] works on: its three registers and the [Memory] it
    holds a reference to. *)
Record CPU : Type := mkCPU {
  PC : Register;       (* Program Counter *)
  IR : Register;       (* Instruction Register *)
  AC : Register;       (* Accumulator *)
  memory : Memory
}.

(** [CPU(mem)]: the registers start at zero. *)
Definition CPU_new (m : Memory) : CPU :=
  {| PC := Register_new; IR := Register_new; AC := Register_new; memory := m |}.

(** A member function of [CPU]: from the state to its result (or the
    exception thrown) and the state it leaves. *)
Definition M (A : Type) : Type := CPU -> Result A * CPU.

Definition ret {A} (a : A) : M A := fun s => (Ok a, s).

Definition throw {A} (e : exception) : M A := fun s => (Throw e, s).

Definition bind {A B} (c : M A) (k : A -> M B) : M B :=
  fun s =>
    match c s with
    | (Ok a, s') => k a s'
    | (Throw e, s') => (Throw e, s')
    end.

Declare Scope cpu_scope.
Delimit Scope cpu_scope with cpu.
Notation "x <- c ;; k" := (bind c (fun x => k))
  (at level 100, c at next level, right associativity) : cpu_scope.
Notation "c ;; k" := (bind c (fun _ => k))
  (at level 100, right associativity) : cpu_scope.

(** A pure call that may throw. *)
Definition lift {A} (r : Result A) : M A :=
  fun s => match r with Ok a => (Ok a, s) | Throw e => (Throw e, s) end.

Definition PC_read : M Z := fun s => (Ok (read (PC s)), s).
Definition IR_read : M Z := fun s => (Ok (read (IR s)), s).
Definition AC_read : M Z := fun s => (Ok (read (AC s)), s).

Definition PC_write (val : Z) : M unit :=
  fun s => (Ok tt, {| PC := write val; IR := IR s; AC := AC s; memory := memory s |}).
Definition IR_write (val : Z) : M unit :=
  fun s => (Ok tt, {| PC := PC s; IR := write val; AC := AC s; memory := memory s |}).
Definition AC_write (val : Z) : M unit :=
  fun s => (Ok tt, {| PC := PC s; IR := IR s; AC := write val; memory := memory s |}).

Definition memory_readWord (address : Z) : M Z :=
  fun s => lift (readWord (memory s) address) s.

Definition memory_writeWord (address : Z) (val : Z) : M unit :=
  fun s =>
    match writeWord (memory s) address val with
    | Ok m' => (Ok tt, {| PC := PC s; IR := IR s; AC := AC s; memory := m' |})
    | Throw e => (Throw e, s)
    end.

Definition fetch : M unit :=
  (address <- PC_read ;;
   instruction <- memory_readWord address ;;
   IR_write instruction ;;
   PC_write (int (address + 2)))%cpu.

(** The opcode and operand fields of an instruction word. *)
Definition opcode_of (instruction : Z) : Z :=
  uint16_t (Z.land (Z.shiftr instruction 12) 15).
Definition operand_of (instruction : Z) : Z :=
  uint16_t (Z.land instruction 4095).

Definition execute : M unit :=
  (instruction <- IR_read ;;
   let opcode := opcode_of instruction in
   let operand := operand_of instruction in
   match opcode with
   | 15 => (* SEA *)
       AC_write operand
   | 2 => (* ADD *)
       a <- AC_read ;; AC_write (ALU.add a operand)
   | 3 => (* MUL *)
       a <- AC_read ;; AC_write (ALU.mul a operand)
   | 4 => (* DIV *)
       a <- AC_read ;; q <- lift (ALU.div a operand) ;; AC_write q
   | 5 => (* MOD *)
       a <- AC_read ;; r <- lift (ALU.mod_ a operand) ;; AC_write r
   | 1 => (* STA *)
       a <- AC_read ;; memory_writeWord operand a
   | 0 => (* LDA *)
       w <- memory_readWord operand ;; AC_write w
   | _ => throw UnknownOpcode
   end)%cpu.

(** One turn of the loop of [run]: [fetch(); execute();].  The debug print
    and the optional [dump] that follow read the state and write to the
    console only; an exception of [dump] is caught on the spot. *)
Definition cycle : M unit := (fetch ;; execute)%cpu.

(** [n] consecutive turns, stopping at the first exception. *)
Fixpoint cycles (n : nat) : M unit :=
  match n with
  | O => ret tt
  | S n' => (cycle ;; cycles n')%cpu
  end.

(** [run]: the loop has no exit but an exception, which it catches and
    reports before it returns.  With [fuel] turns at most, [run] gives the
    exception that ended the loop and the state then, or [None] when the
    loop is still going after [fuel] turns. *)
Fixpoint run (fuel : nat) (s : CPU) : option (exception * CPU) :=
  match fuel with
  | O => None
  | S fuel' =>
      match cycle s with
      | (Ok _, s') => run fuel' s'
      | (Throw e, s') => Some (e, s')
      end
  end.

(** The state [s] with the value [v] in [AC], and with the memory [m]. *)
Definition with_AC (s : CPU) (v : Z) : CPU :=
  {| PC := PC s; IR := IR s; AC := {| value := v |}; memory := memory s |}.

Definition with_memory (s : CPU) (m : Memory) : CPU :=
  {| PC := PC s; IR := IR s; AC := AC s; memory := m |}.

(** ** The text functions [loadProgram] relies on *)

Local Open Scope string_scope.

(** [s.find(c)]: the index of the first [c] in [s]; [None] is [npos]. *)
Fixpoint find (c : ascii) (s : string) : option nat :=
  match s with
  | EmptyString => None
  | String x s' =>
      if Ascii.eqb x c then Some O
      else match find c s' with
           | Some k => Some (S k)
           | None => None
           end
  end.

Fixpoint take_str (n : nat) (s : string) : string :=
  match n, s with
  | S n', String x s' => String x (take_str n' s')
  | _, _ => EmptyString
  end.

Fixpoint drop_str (n : nat) (s : string) : string :=
  match n, s with
  | S n', String _ s' => drop_str n' s'
  | _, _ => s
  end.

(** [s.substr(0, count)], where [count] may be [npos]. *)
Definition substr_upto (s : string) (count : option nat) : string :=
  match count with
  | Some k => take_str k s
  | None => s
  end.

(** [s.substr(pos + 1)], where [pos] may be [npos]: [npos + 1] wraps
    around to [0]. *)
Definition substr_after (s : string) (pos : option nat) : string :=
  match pos with
  | Some k => drop_str (S k) s
  | None => s
  end.

(** The lines successive calls of [std::getline] give on a stream that
    holds [s]: a line ends at ['\n'] or at the end of the stream, and the
    call that meets the end of the stream without a character fails.  [cur]
    is the line read so far. *)
Fixpoint getlines_from (cur : string) (s : string) : list string :=
  match s with
  | EmptyString =>
      match cur with
      | EmptyString => []
      | _ => [cur]
      end
  | String x s' =>
      if Ascii.eqb x "010"%char then cur :: getlines_from EmptyString s'
      else getlines_from (cur ++ String x EmptyString) s'
  end.

Definition getlines (s : string) : list string := getlines_from EmptyString s.

(** [isspace] in the "C" locale. *)
Definition isspace (c : ascii) : bool :=
  let n := N_of_ascii c in
  ((9 <=? n) && (n <=? 13) || (n =? 32))%N.

(** The value of a base-16 digit. *)
Definition hex_digit (c : ascii) : option Z :=
  let n := Z.of_N (N_of_ascii c) in
  if ((48 <=? n) && (n <=? 57))%Z then Some (n - 48)%Z            (* 0-9 *)
  else if ((65 <=? n) && (n <=? 70))%Z then Some (n - 65 + 10)%Z  (* A-F *)
  else if ((97 <=? n) && (n <=? 102))%Z then Some (n - 97 + 10)%Z (* a-f *)
  else None.

Fixpoint skip_space (s : string) : string :=
  match s with
  | String x s' => if isspace x then skip_space s' else s
  | EmptyString => s
  end.

(** The number the leading base-16 digits of [s] denote, from [acc]. *)
Fixpoint hex_digits (acc : Z) (s : string) : Z :=
  match s with
  | String x s' =>
      match hex_digit x with
      | Some d => hex_digits (acc * 16 + d) s'
      | None => acc
      end
  | EmptyString => acc
  end.

(** An optional sign: whether it is [-], and what follows it. *)
Definition strip_sign (s : string) : bool * string :=
  match s with
  | String x r =>
      if Ascii.eqb x "-" then (true, r)
      else if Ascii.eqb x "+" then (false, r)
      else (false, s)
  | EmptyString => (false, s)
  end.

(** An optional [0x] or [0X], taken only when a digit follows it. *)
Definition strip_0x (s : string) : string :=
  match s with
  | String z (String x (String d r)) =>
      if Ascii.eqb z "0" && (Ascii.eqb x "x" || Ascii.eqb x "X")
         && bool_decide (is_Some (hex_digit d))
      then String d r
      else s
  | _ => s
  end.

(** [std::stoi(s, nullptr, 16)], as [strtol] reads its subject: white
    space, an optional sign, an optional [0x] or [0X] before a digit, then
    digits.  No digit: [std::invalid_argument]; a number that is no [int]:
    [std::out_of_range]. *)
Definition stoi16 (s : string) : Result Z :=
  let '(negative, s2) := strip_sign (skip_space s) in
  let s3 := strip_0x s2 in
  match s3 with
  | EmptyString => Throw InvalidArgument
  | String d _ =>
      match hex_digit d with
      | None => Throw InvalidArgument
      | Some _ =>
          let v := hex_digits 0 s3 in
          let v := if negative then (- v)%Z else v in
          if ((v <? INT_MIN) || (v >? INT_MAX))%Z then Throw StoiOutOfRange
          else Ok v
      end
  end.

(** ** loadProgram *)

(** The body of the [while (std::getline(file, line))] loop over the
    lines still to read, with the local [address] and the memory. *)
Fixpoint load_lines (lines : list string) (address : Z) (m : Memory)
  : Result unit * Memory :=
  match lines with
  | [] => (Ok tt, m)
  | line :: rest =>
      if String.eqb line "" then load_lines rest address m
      else
        let opcode := substr_upto line (find " " line) in
        let operand := substr_after line (find " " line) in
        let opcodeBinary : Z :=
          if String.eqb opcode "SEA" then 15
          else if String.eqb opcode "ADD" then 2
          else if String.eqb opcode "MUL" then 3
          else if String.eqb opcode "DIV" then 4
          else if String.eqb opcode "MOD" then 5
          else if String.eqb opcode "STA" then 1
          else if String.eqb opcode "LDA" then 0
          else 0 in
        match stoi16 operand with
        | Throw e => (Throw e, m)
        | Ok n =>
            let operandBinary := uint16_t n in
            let instruction :=
              uint16_t (int (Z.lor (Z.shiftl opcodeBinary 12) operandBinary)) in
            match writeWord m address instruction with
            | Throw e => (Throw e, m)
            | Ok m' => load_lines rest (int (address + 2)) m'
            end
        end
  end.

(** [loadProgram(memory, filename)]; [file] is the content of the file, or
    [None] when it cannot be opened (the memory is then left as it is). *)
Definition loadProgram (m : Memory) (file : option string)
  : Result unit * Memory :=
  match file with
  | None => (Ok tt, m)
  | Some text => load_lines (getlines text) 0 m
  end.

(** ** The program source format, as the specification words it *)

Inductive Mnemonic : Type := SEA | ADD | MUL | DIV | MOD | STA | LDA.

Definition mnemonic_text (k : Mnemonic) : string :=
  match k with
  | SEA => "SEA" | ADD => "ADD" | MUL => "MUL" | DIV => "DIV"
  | MOD => "MOD" | STA => "STA" | LDA => "LDA"
  end.

(** The table encoding of a mnemonic. *)
Definition encoding (k : Mnemonic) : Z :=
  match k with
  | SEA => 15 | ADD => 2 | MUL => 3 | DIV => 4
  | MOD => 5 | STA => 1 | LDA => 0
  end.

(** A hexadecimal literal: base-16 digits, one at least. *)
Fixpoint all_hex (s : string) : bool :=
  match s with
  | EmptyString => true
  | String x s' => bool_decide (is_Some (hex_digit x)) && all_hex s'
  end.

Definition hex_literal (s : string) : bool :=
  negb (String.eqb s "") && all_hex s.

(** The number a hexadecimal literal denotes, most significant digit
    first. *)
Definition hex_value (s : string) : Z :=
  fold_left (fun acc x => acc * 16 + default 0 (hex_digit x))%Z
            (list_ascii_of_string s) 0%Z.

(** A line [MNEMONIC OPERAND]. *)
Definition source_line (k : Mnemonic) (operand : string) : string :=
  mnemonic_text k ++ " " ++ operand.

(** A program: for each instruction its mnemonic and operand literal;
    [None] stands for an empty line, one without any character. *)
Definition program : Type := list (option (Mnemonic * string)).

Definition line_of (l : option (Mnemonic * string)) : string :=
  match l with
  | Some (k, operand) => source_line k operand
  | None => ""
  end.

(** The text of a program: every line ended by a newline. *)
Fixpoint program_text (p : program) : string :=
  match p with
  | [] => ""
  | l :: p' => line_of l ++ String "010"%char (program_text p')
  end.

(** The instructions of a program, empty lines left out. *)
Definition instructions (p : program) : list (Mnemonic * string) :=
  omap id p.

(** Every operand is a hexadecimal literal that denotes a 12-bit value. *)
Definition well_formed (p : program) : Prop :=
  Forall (fun '(_, operand) =>
            hex_literal operand = true /\ (0 <= hex_value operand < 4096)%Z)
         (instructions p).

(** The instruction word of a line. *)
Definition instruction_word (k : Mnemonic) (operand : string) : Z :=
  Z.lor (Z.shiftl (encoding k) 12) (hex_value operand).

Local Close Scope string_scope.

(** ** Console output: numbers *)

Local Open Scope string_scope.

(** The newline character, as a string. *)
Definition endl : string := String "010"%char "".

(** The digit [std::hex << std::uppercase] prints for [d] in [0, 15]. *)
Definition hex_char (d : Z) : ascii :=
  match String.get (Z.to_nat d) "0123456789ABCDEF" with
  | Some c => c
  | None => "0"%char
  end.

(** The base-16 digits of [n], most significant first, before [acc]. *)
Fixpoint to_hex_from (fuel : nat) (n : Z) (acc : string) : string :=
  match fuel with
  | O => acc
  | S fuel' =>
      let acc' := String (hex_char (n mod 16)) acc in
      if (n <? 16)%Z then acc' else to_hex_from fuel' (n / 16) acc'
  end.

(** What [std::hex << std::uppercase << n] prints for [n >= 0]. *)
Definition to_hex (n : Z) : string :=
  to_hex_from (S (Z.to_nat (Z.log2 n))) n "".

Fixpoint fill_string (k : nat) (fill : ascii) : string :=
  match k with
  | O => ""
  | S k' => String fill (fill_string k' fill)
  end.

(** [std::setw(w) << std::setfill(fill)] on the text [s]: padding on the
    left up to the width [w], nothing cut. *)
Definition setw (w : nat) (fill : ascii) (s : string) : string :=
  fill_string (w - String.length s) fill ++ s.

(** What [std::bitset<8>(b)] prints: the bits 7 down to 0 of [b]. *)
Definition bitset8 (b : Z) : string :=
  let bit (i : Z) : ascii := if Z.testbit b i then "1"%char else "0"%char in
  String (bit 7%Z) (String (bit 6%Z) (String (bit 5%Z) (String (bit 4%Z)
    (String (bit 3%Z) (String (bit 2%Z) (String (bit 1%Z) (String (bit 0%Z)
    ""))))))).

(** ** Memory: dump *)

(** The [for] loop of the hexadecimal branch, from index [i] with [n]
    turns to go. *)
Fixpoint dump_hex_loop (m : Memory) (start end_ : Z) (n : nat) (i : Z)
  : string :=
  match n with
  | O => ""
  | S n' =>
      setw 2 "0" (to_hex (cell m i))
      ++ (if (Z.rem (i - start + 1) 16 =? 0)%Z || (i =? end_)%Z
          then endl else " ")
      ++ dump_hex_loop m start end_ n' (i + 1)
  end.

(** The [for] loop of the binary branch. *)
Fixpoint dump_bin_loop (m : Memory) (start end_ : Z) (n : nat) (i : Z)
  : string :=
  match n with
  | O => ""
  | S n' =>
      bitset8 (cell m i)
      ++ (if (Z.rem (i - start + 1) 8 =? 0)%Z || (i =? end_)%Z
          then endl else " ")
      ++ dump_bin_loop m start end_ n' (i + 1)
  end.

(** The first line [dump] prints. *)
Definition dump_header (format : Z) : string :=
  "메모리 덤프 (" ++ (if (format =? 16)%Z then "16진수" else "2진수")
  ++ "):" ++ endl.

(** The rest of what [dump] prints. *)
Definition dump_body (m : Memory) (start end_ format : Z) : string :=
  let n := Z.to_nat (end_ - start + 1) in
  if (format =? 16)%Z then dump_hex_loop m start end_ n start
  else dump_bin_loop m start end_ n start.

(** [dump(start, end, format)]: the text written to [std::cout], or the
    exception thrown before anything is written. *)
Definition dump (m : Memory) (start end_ format : Z) : Result string :=
  if ((start <? 0) || (end_ >=? MEM_SIZE) || (start >? end_))%Z
  then Throw OutOfRange
  else Ok (dump_header format ++ dump_body m start end_ format).

(** ** debug *)

(** The text [debug(PC, IR, AC)] writes to [std::cout]. *)
Definition debug (PC IR AC : Register) : string :=
  "==================== DEBUG ====================" ++ endl
  ++ "PC: " ++ setw 4 "0" (to_hex (read PC)) ++ endl
  ++ "IR: " ++ setw 4 "0" (to_hex (read IR)) ++ endl
  ++ "AC: " ++ setw 4 "0" (to_hex (read AC)) ++ endl
  ++ "===============================================" ++ endl.

(** ** main *)

(** How [main] ends: [loadProgram] throws and nothing catches it, or
    [run] has caught the exception that ended its loop and [main]
    returns. *)
Inductive Exit : Type :=
  | Uncaught (e : exception)
  | Returned (e : exception) (s : CPU).

(** [main], on the content of [prog.txt] ([None]: no such file), with
    [fuel] turns of the loop of [run] at most. *)
Definition main (file : option string) (fuel : nat) : option Exit :=
  match loadProgram Memory_new file with
  | (Throw e, _) => Some (Uncaught e)
  | (Ok _, m) =>
      match run fuel (CPU_new m) with
      | Some (e, s) => Some (Returned e s)
      | None => None
      end
  end.

(** ** Reading console output back *)

(** The words of a text: the maximal runs without a space or a newline.
    [cur] is the word read so far. *)
Fixpoint words_from (cur : string) (s : string) : list string :=
  match s with
  | EmptyString =>
      match cur with
      | EmptyString => []
      | _ => [cur]
      end
  | String x s' =>
      if Ascii.eqb x " " || Ascii.eqb x "010" then
        match cur with
        | EmptyString => words_from "" s'
        | _ => cur :: words_from "" s'
        end
      else words_from (cur ++ String x "") s'
  end.

Definition words (s : string) : list string := words_from "" s.

(** A string of [0]s and [1]s. *)
Fixpoint all_bits (s : string) : bool :=
  match s with
  | EmptyString => true
  | String x s' => (Ascii.eqb x "0" || Ascii.eqb x "1") && all_bits s'
  end.

(** The number a string of [0]s and [1]s denotes. *)
Definition bin_value (s : string) : Z :=
  fold_left (fun acc x => acc * 2 + (if Ascii.eqb x "1" then 1 else 0))%Z
            (list_ascii_of_string s) 0%Z.

(** The cells [i], [i + 1], ... ([n] of them). *)
Fixpoint cells (m : Memory) (i : Z) (n : nat) : list Z :=
  match n with
  | O => []
  | S n' => cell m i :: cells m (i + 1) n'
  end.

(** Every cell is a byte. *)
Definition Memory_bytes (m : Memory) : Prop :=
  Forall (fun b => 0 <= b < 2 ^ 8)%Z (mem m).

Local Close Scope string_scope.

(** ** The two loops of dump as one *)

(** The common shape of the two [for] loops of [dump]: the text [token]
    gives for a cell, then a newline after every [per_line] cells and
    after the last one, a space otherwise. *)
Fixpoint dump_loop (per_line : Z) (token : Z -> string) (m : Memory)
    (start end_ : Z) (n : nat) (i : Z) : string :=
  match n with
  | O => EmptyString
  | S n' =>
      (token (cell m i)
       ++ (if ((Z.rem (i - start + 1) per_line =? 0) || (i =? end_))%Z
           then endl else String " "%char EmptyString)
       ++ dump_loop per_line token m start end_ n' (i + 1))%string
  end.

(** The value of base-16 digits read after a number [a]. *)
Definition hex_fold (a : Z) (s : string) : Z :=
  fold_left (fun acc x => acc * 16 + default 0 (hex_digit x))%Z
            (list_ascii_of_string s) a.

(** ** Invariants of the machine state *)

(** A register holds a 16-bit value. *)
Definition Register_wf (r : Register) : Prop := 0 <= value r < 2 ^ 16.

(** The state of a machine that was built by [CPU(mem)] on a [Memory()]
    and changed by [fetch], [execute] and [loadProgram] only. *)
Definition CPU_wf (s : CPU) : Prop :=
  Register_wf (PC s) /\ Register_wf (IR s) /\ Register_wf (AC s)
  /\ Memory_wf (memory s) /\ Memory_bytes (memory s).

(** ** Straight-line arithmetic, as a calculation on the accumulator *)

(** What an arithmetic instruction makes of the accumulator [ac]; [None]
    for a division by zero and for the instructions that use the memory. *)
Definition arith_step (ac : Z) (ins : Mnemonic * string) : option Z :=
  let v := hex_value (snd ins) in
  match fst ins with
  | SEA => Some v
  | ADD => Some ((ac + v) mod 2 ^ 16)
  | MUL => Some ((ac * v) mod 2 ^ 16)
  | DIV => if v =? 0 then None else Some (ac / v)
  | MOD => if v =? 0 then None else Some (ac mod v)
  | STA | LDA => None
  end.

Fixpoint arith_run (ac : Z) (l : list (Mnemonic * string)) : option Z :=
  match l with
  | [] => Some ac
  | ins :: l' =>
      match arith_step ac ins with
      | Some ac' => arith_run ac' l'
      | None => None
      end
  end.

(** * Properties *)

(** ** Machine integers *)

Lemma uint16_t_range x : 0 <= uint16_t x < 2 ^ 16.
Proof. unfold uint16_t. apply Z.mod_pos_bound. lia. Qed.

Lemma uint16_t_small x : 0 <= x < 2 ^ 16 -> uint16_t x = x.
Proof. intros H. unfold uint16_t. apply Z.mod_small. exact H. Qed.

Lemma uint16_t_idemp x : uint16_t (uint16_t x) = uint16_t x.
Proof. apply uint16_t_small, uint16_t_range. Qed.

Lemma uint8_t_small x : 0 <= x < 2 ^ 8 -> uint8_t x = x.
Proof. intros H. unfold uint8_t. apply Z.mod_small. exact H. Qed.

Lemma int_small x : INT_MIN <= x <= INT_MAX -> int x = x.
Proof.
  unfold INT_MIN, INT_MAX, int. intros H.
  rewrite Z.mod_small by lia. lia.
Qed.

(** Truncating an [int] result to 16 bits forgets the 32-bit wrap-around. *)
Lemma uint16_t_int x : uint16_t (int x) = x mod 2 ^ 16.
Proof.
  unfold uint16_t, int.
  assert (E : (x + 2 ^ 31) mod 2 ^ 32 - 2 ^ 31
              = x - 2 ^ 16 * (2 ^ 16 * ((x + 2 ^ 31) / 2 ^ 32))).
  { pose proof (Z.div_mod (x + 2 ^ 31) (2 ^ 32) ltac:(lia)). lia. }
  rewrite E.
  replace (x - 2 ^ 16 * (2 ^ 16 * ((x + 2 ^ 31) / 2 ^ 32)))
    with (x + (- (2 ^ 16 * ((x + 2 ^ 31) / 2 ^ 32))) * 2 ^ 16) by lia.
  apply Z.mod_add. lia.
Qed.

Lemma land_255 x : Z.land x 255 = x mod 2 ^ 8.
Proof. change 255 with (Z.ones 8). apply Z.land_ones. lia. Qed.

Lemma land_4095 x : Z.land x 4095 = x mod 2 ^ 12.
Proof. change 4095 with (Z.ones 12). apply Z.land_ones. lia. Qed.

Lemma land_15 x : Z.land x 15 = x mod 2 ^ 4.
Proof. change 15 with (Z.ones 4). apply Z.land_ones. lia. Qed.

(** [(hi << n) | lo] is [hi * 2^n + lo] when [lo] has [n] bits. *)
Lemma lor_shiftl_add hi lo n :
  0 <= n -> 0 <= lo < 2 ^ n -> Z.lor (Z.shiftl hi n) lo = hi * 2 ^ n + lo.
Proof.
  intros Hn Hlo.
  rewrite Z.shiftl_mul_pow2 by lia.
  assert (H0 : Z.land (hi * 2 ^ n) lo = 0).
  { apply Z.bits_inj'; intros k Hk.
    rewrite Z.land_spec, Z.bits_0.
    destruct (Z.lt_ge_cases k n) as [Hlt | Hge].
    - rewrite Z.mul_pow2_bits_low by lia. reflexivity.
    - destruct (Z.eq_dec lo 0) as [-> | Hnz].
      + rewrite Z.bits_0. apply andb_false_r.
      + rewrite (Z.bits_above_log2 lo k); [ apply andb_false_r | lia | ].
        apply Z.lt_le_trans with n; [ apply Z.log2_lt_pow2; lia | lia ]. }
  rewrite (Z.add_nocarry_lxor _ _ H0), (Z.lxor_lor _ _ H0). reflexivity.
Qed.

(** The two bytes of a 16-bit value give it back, high byte first. *)
Lemma word_of_bytes v :
  0 <= v < 2 ^ 16 ->
  Z.lor (Z.shiftl (Z.land (Z.shiftr v 8) 255) 8) (Z.land v 255) = v.
Proof.
  intros Hv.
  rewrite !land_255, Z.shiftr_div_pow2 by lia.
  rewrite lor_shiftl_add; [ | lia | apply Z.mod_pos_bound; lia ].
  rewrite (Z.mod_small (v / 2 ^ 8)).
  - pose proof (Z.div_mod v (2 ^ 8) ltac:(lia)). lia.
  - split; [ apply Z.div_pos; lia | apply Z.div_lt_upper_bound; lia ].
Qed.

(** ** ALU *)

Lemma ALU_add_eq a b : ALU.add a b = (a + b) mod 2 ^ 16.
Proof. apply uint16_t_int. Qed.

Lemma ALU_mul_eq a b : ALU.mul a b = (a * b) mod 2 ^ 16.
Proof. apply uint16_t_int. Qed.

(** C6: for 16-bit [a] and [b], [ALU.add a b] is [(a + b) mod 2^16] and
    [ALU.mul a b] is [(a * b) mod 2^16]: both are total, stay in the 16-bit
    range and wrap around without saturating; [add(0xFFFF, 1) = 0x0000]. *)
Theorem ALU_add_mul_wrap (a b : Z) :
  0 <= a < 2 ^ 16 -> 0 <= b < 2 ^ 16 ->
  ALU.add a b = (a + b) mod 2 ^ 16
  /\ ALU.mul a b = (a * b) mod 2 ^ 16
  /\ 0 <= ALU.add a b < 2 ^ 16
  /\ 0 <= ALU.mul a b < 2 ^ 16
  /\ ALU.add 65535 1 = 0.
Proof.
  intros _ _.
  rewrite ALU_add_eq, ALU_mul_eq.
  repeat split; try (apply Z.mod_pos_bound; lia).
Qed.

Lemma ALU_add_mul_wrap_witness :
  ALU.add 65535 65535 = (65535 + 65535) mod 2 ^ 16
  /\ ALU.mul 65535 65535 = (65535 * 65535) mod 2 ^ 16
  /\ 0 <= ALU.add 65535 65535 < 2 ^ 16
  /\ 0 <= ALU.mul 65535 65535 < 2 ^ 16
  /\ ALU.add 65535 1 = 0.
Proof. apply (ALU_add_mul_wrap 65535 65535); lia. Defined.

(** The products [execute] asks for stay inside [int]: the operand has
    12 bits. *)
Lemma ALU_mul_no_int_overflow a b :
  0 <= a < 2 ^ 16 -> 0 <= b < 2 ^ 12 -> int (a * b) = a * b.
Proof.
  intros Ha Hb. apply int_small. unfold INT_MIN, INT_MAX. nia.
Qed.

Lemma ALU_div_zero a : ALU.div a 0 = Throw DivisionByZero.
Proof. reflexivity. Qed.

Lemma ALU_mod_zero a : ALU.mod_ a 0 = Throw DivisionByZero.
Proof. reflexivity. Qed.

Lemma ALU_div_nonzero a b :
  0 <= a < 2 ^ 16 -> 0 < b -> ALU.div a b = Ok (Z.quot a b).
Proof.
  intros Ha Hb. unfold ALU.div.
  destruct (Z.eqb_spec b 0) as [-> | _]; [ lia | ].
  rewrite uint16_t_int, Z.mod_small; [ reflexivity | ].
  rewrite Z.quot_div_nonneg by lia.
  split; [ apply Z.div_pos; lia | ].
  apply Z.div_lt_upper_bound; nia.
Qed.

Lemma ALU_mod_nonzero a b :
  0 <= a < 2 ^ 16 -> 0 < b -> ALU.mod_ a b = Ok (Z.rem a b).
Proof.
  intros Ha Hb. unfold ALU.mod_.
  destruct (Z.eqb_spec b 0) as [-> | _]; [ lia | ].
  rewrite uint16_t_int, Z.mod_small; [ reflexivity | ].
  rewrite Z.rem_mod_nonneg by lia.
  pose proof (Z.mod_pos_bound a b Hb).
  pose proof (Z.mod_le a b ltac:(lia) Hb). lia.
Qed.

(** C5: for 16-bit [a] and [b], [ALU.div a b] and [ALU.mod a b] throw
    [DivisionByZero] when [b = 0]; otherwise they return the quotient [q]
    truncated toward zero and the remainder [r] of [a] by [b], that is
    [a = b * q + r] with [0 <= r < b]. *)
Theorem ALU_div_mod (a b : Z) :
  0 <= a < 2 ^ 16 -> 0 <= b < 2 ^ 16 ->
  (b = 0 ->
     ALU.div a b = Throw DivisionByZero /\ ALU.mod_ a b = Throw DivisionByZero)
  /\ (b <> 0 ->
        exists q r,
          ALU.div a b = Ok q /\ ALU.mod_ a b = Ok r
          /\ q = Z.quot a b /\ r = Z.rem a b
          /\ a = b * q + r /\ 0 <= r < b /\ 0 <= q <= a).
Proof.
  intros Ha Hb. split.
  - intros ->. split; reflexivity.
  - intros Hnz. exists (Z.quot a b), (Z.rem a b).
    rewrite ALU_div_nonzero, ALU_mod_nonzero by lia.
    repeat split; try reflexivity.
    + apply Z.quot_rem'.
    + apply Z.rem_bound_pos; lia.
    + apply Z.rem_bound_pos; lia.
    + apply Z.quot_pos; lia.
    + rewrite Z.quot_div_nonneg by lia.
      apply Z.div_le_upper_bound; nia.
Qed.

Lemma ALU_div_mod_witness :
  (2 = 0 ->
     ALU.div 7 2 = Throw DivisionByZero /\ ALU.mod_ 7 2 = Throw DivisionByZero)
  /\ (2 <> 0 ->
        exists q r,
          ALU.div 7 2 = Ok q /\ ALU.mod_ 7 2 = Ok r
          /\ q = Z.quot 7 2 /\ r = Z.rem 7 2
          /\ 7 = 2 * q + r /\ 0 <= r < 2 /\ 0 <= q <= 7).
Proof. apply (ALU_div_mod 7 2); lia. Defined.

(** ** Memory *)

Lemma Memory_new_wf : Memory_wf Memory_new.
Proof.
  unfold Memory_wf, Memory_new. cbn [mem].
  rewrite length_replicate. apply Z2Nat.id. unfold MEM_SIZE. lia.
Qed.

Lemma set_cell_wf m i b : Memory_wf m -> Memory_wf (set_cell m i b).
Proof. unfold Memory_wf, set_cell. simpl. rewrite length_insert. trivial. Qed.

Lemma cell_set_cell_eq m i b :
  Memory_wf m -> 0 <= i < MEM_SIZE -> cell (set_cell m i b) i = uint8_t b.
Proof.
  unfold Memory_wf, cell, set_cell. intros Hwf Hi. simpl.
  apply list_lookup_total_insert_eq. lia.
Qed.

Lemma cell_set_cell_ne m i j b :
  0 <= i -> 0 <= j -> i <> j -> cell (set_cell m i b) j = cell m j.
Proof.
  unfold cell, set_cell. intros Hi Hj Hne. simpl.
  apply list_lookup_total_insert_ne. lia.
Qed.

Lemma in_range_guard a :
  0 <= a <= MEM_SIZE - 2 -> (a <? 0) || (a >=? MEM_SIZE - 1) = false.
Proof. unfold MEM_SIZE. intros H. apply orb_false_iff. lia. Qed.

Lemma out_of_range_guard a :
  a < 0 \/ a > MEM_SIZE - 2 -> (a <? 0) || (a >=? MEM_SIZE - 1) = true.
Proof. unfold MEM_SIZE. intros H. apply orb_true_iff. lia. Qed.

(** What a successful [writeWord] leaves: the two bytes of the value at
    [a] and [a + 1], every other cell as it was. *)
Lemma writeWord_ok m a v :
  Memory_wf m -> 0 <= a <= MEM_SIZE - 2 -> 0 <= v < 2 ^ 16 ->
  exists m',
    writeWord m a v = Ok m' /\ Memory_wf m'
    /\ cell m' a = v / 2 ^ 8 /\ cell m' (a + 1) = v mod 2 ^ 8
    /\ (forall j, 0 <= j -> j <> a -> j <> a + 1 -> cell m' j = cell m j).
Proof.
  intros Hwf Ha Hv. unfold writeWord. rewrite in_range_guard by exact Ha.
  eexists. split; [ reflexivity | ].
  assert (Hhi : Z.land (Z.shiftr v 8) 255 = v / 2 ^ 8).
  { rewrite land_255, Z.shiftr_div_pow2 by lia. apply Z.mod_small.
    split; [ apply Z.div_pos; lia | apply Z.div_lt_upper_bound; lia ]. }
  unfold MEM_SIZE in Ha.
  split; [ | split; [ | split ] ].
  - apply set_cell_wf, set_cell_wf, Hwf.
  - rewrite cell_set_cell_ne by lia.
    rewrite cell_set_cell_eq by (unfold MEM_SIZE; trivial; lia).
    rewrite Hhi. apply uint8_t_small.
    split; [ apply Z.div_pos; lia | apply Z.div_lt_upper_bound; lia ].
  - rewrite cell_set_cell_eq
      by (try apply set_cell_wf; unfold MEM_SIZE; trivial; lia).
    rewrite land_255. apply uint8_t_small. apply Z.mod_pos_bound. lia.
  - intros j Hj Hja Hja1. rewrite !cell_set_cell_ne by lia. reflexivity.
Qed.

Lemma readWord_cells m a hi lo :
  0 <= a <= MEM_SIZE - 2 -> cell m a = hi -> cell m (a + 1) = lo ->
  readWord m a = Ok (uint16_t (Z.lor (Z.shiftl hi 8) lo)).
Proof.
  intros Ha <- <-. unfold readWord. rewrite in_range_guard by exact Ha.
  reflexivity.
Qed.

Lemma word_of_div_mod v :
  0 <= v < 2 ^ 16 ->
  uint16_t (Z.lor (Z.shiftl (v / 2 ^ 8) 8) (v mod 2 ^ 8)) = v.
Proof.
  intros Hv.
  rewrite lor_shiftl_add; [ | lia | apply Z.mod_pos_bound; lia ].
  pose proof (Z.div_mod v (2 ^ 8) ltac:(lia)) as E.
  replace (v / 2 ^ 8 * 2 ^ 8 + v mod 2 ^ 8) with v by lia.
  apply uint16_t_small, Hv.
Qed.

(** C2: for an address [a] in [0, 4094] and a 16-bit value [v],
    [writeWord(a, v)] succeeds and [readWord(a)] then returns [v]; the
    high byte of [v] is at [a] and the low byte at [a + 1]. *)
Theorem writeWord_readWord (m : Memory) (a v : Z) :
  Memory_wf m -> 0 <= a <= 4094 -> 0 <= v < 2 ^ 16 ->
  exists m',
    writeWord m a v = Ok m'
    /\ readWord m' a = Ok v
    /\ cell m' a = v / 2 ^ 8
    /\ cell m' (a + 1) = v mod 2 ^ 8.
Proof.
  intros Hwf Ha Hv.
  destruct (writeWord_ok m a v Hwf) as (m' & Hw & _ & Hhi & Hlo & _);
    [ unfold MEM_SIZE; lia | exact Hv | ].
  exists m'. repeat split; try assumption.
  rewrite (readWord_cells m' a _ _ ltac:(unfold MEM_SIZE; lia) Hhi Hlo).
  f_equal. apply word_of_div_mod, Hv.
Qed.

Lemma writeWord_readWord_witness :
  exists m',
    writeWord Memory_new 4094 43981 = Ok m'
    /\ readWord m' 4094 = Ok 43981
    /\ cell m' 4094 = 43981 / 2 ^ 8
    /\ cell m' (4094 + 1) = 43981 mod 2 ^ 8.
Proof.
  apply (writeWord_readWord Memory_new 4094 43981);
    [ exact Memory_new_wf | lia | lia ].
Defined.

(** C3: [readWord(a)] and [writeWord(a, v)] throw [OutOfRange] exactly
    when [a < 0] or [a > MEM_SIZE - 2 = 4094], and succeed exactly when
    [a] is in [0, 4094]. *)
Theorem word_access_bounds (m : Memory) (a v : Z) :
  MEM_SIZE - 2 = 4094
  /\ (readWord m a = Throw OutOfRange <-> a < 0 \/ a > MEM_SIZE - 2)
  /\ (writeWord m a v = Throw OutOfRange <-> a < 0 \/ a > MEM_SIZE - 2)
  /\ ((exists w, readWord m a = Ok w) <-> 0 <= a <= 4094)
  /\ ((exists m', writeWord m a v = Ok m') <-> 0 <= a <= 4094).
Proof.
  split; [ reflexivity | ].
  unfold readWord, writeWord.
  destruct (Z.lt_ge_cases a 0) as [Hneg | Hpos];
    [ | destruct (Z.le_gt_cases a (MEM_SIZE - 2)) as [Hle | Hgt] ];
    [ rewrite out_of_range_guard by lia
    | rewrite in_range_guard by lia
    | rewrite out_of_range_guard by lia ];
    unfold MEM_SIZE in *;
    repeat split; intros;
    try lia; try discriminate;
    try (match goal with H : ex _ |- _ => destruct H; discriminate end);
    try (eexists; reflexivity).
Qed.

(** ** CPU: fetch *)

Lemma readWord_inv m a w :
  readWord m a = Ok w -> 0 <= a <= MEM_SIZE - 2 /\ 0 <= w < 2 ^ 16.
Proof.
  unfold readWord.
  destruct ((a <? 0) || (a >=? MEM_SIZE - 1)) eqn:G; [ discriminate | ].
  intros [= <-]. apply orb_false_iff in G. unfold MEM_SIZE in *.
  split; [ lia | apply uint16_t_range ].
Qed.

Lemma readWord_throw m a e :
  readWord m a = Throw e -> e = OutOfRange /\ (a < 0 \/ a > MEM_SIZE - 2).
Proof.
  unfold readWord.
  destruct ((a <? 0) || (a >=? MEM_SIZE - 1)) eqn:G; [ | discriminate ].
  intros [= <-]. apply orb_true_iff in G. unfold MEM_SIZE in *.
  split; [ reflexivity | lia ].
Qed.

Lemma writeWord_throw m a v e :
  writeWord m a v = Throw e -> e = OutOfRange /\ (a < 0 \/ a > MEM_SIZE - 2).
Proof.
  unfold writeWord.
  destruct ((a <? 0) || (a >=? MEM_SIZE - 1)) eqn:G; [ | discriminate ].
  intros [= <-]. apply orb_true_iff in G. unfold MEM_SIZE in *.
  split; [ reflexivity | lia ].
Qed.

(** [fetch], written out on the state. *)
Lemma fetch_unfold s :
  fetch s =
    match readWord (memory s) (read (PC s)) with
    | Ok w =>
        (Ok tt, mkCPU (write (int (read (PC s) + 2))) (write w) (AC s) (memory s))
    | Throw e => (Throw e, s)
    end.
Proof.
  unfold fetch, bind, PC_read, memory_readWord, lift, IR_write, PC_write.
  destruct (readWord (memory s) (read (PC s))); reflexivity.
Qed.

(** C4: a successful [fetch] has read the word at address [PC] into [IR]
    and set [PC] to that address plus 2, with [AC] and the memory as they
    were; a [fetch] that fails has thrown the [OutOfRange] of [readWord]
    and left the whole state, [IR] and [PC] included, as it was.  Which of
    the two happens is decided by [PC] being a word address. *)
Theorem fetch_spec (s : CPU) :
  (forall s', fetch s = (Ok tt, s') ->
     readWord (memory s) (read (PC s)) = Ok (read (IR s'))
     /\ read (PC s') = read (PC s) + 2
     /\ AC s' = AC s
     /\ memory s' = memory s)
  /\ (forall e s', fetch s = (Throw e, s') ->
        e = OutOfRange
        /\ readWord (memory s) (read (PC s)) = Throw OutOfRange
        /\ s' = s)
  /\ ((exists s', fetch s = (Ok tt, s')) <-> 0 <= read (PC s) <= 4094)
  /\ (fetch s = (Throw OutOfRange, s) <-> ~ 0 <= read (PC s) <= 4094).
Proof.
  rewrite fetch_unfold.
  destruct (readWord (memory s) (read (PC s))) as [w | e] eqn:R.
  - destruct (readWord_inv _ _ _ R) as [Ha Hw]. unfold MEM_SIZE in Ha.
    split; [ | split; [ | split ] ].
    + intros s' [= <-]. cbn.
      rewrite (uint16_t_small w) by exact Hw.
      rewrite int_small, uint16_t_small; unfold INT_MIN, INT_MAX; try lia.
      repeat split; reflexivity.
    + intros e s' [=].
    + split; [ lia | ]. intros _. eexists. reflexivity.
    + split; [ discriminate | lia ].
  - destruct (readWord_throw _ _ _ R) as [-> Ha]. unfold MEM_SIZE in Ha.
    split; [ | split; [ | split ] ].
    + intros s' [=].
    + intros e s' [= <- <-]. repeat split; reflexivity.
    + split; [ intros [s' [=]] | lia ].
    + split; [ lia | reflexivity ].
Qed.

(** ** CPU: execute *)

Lemma opcode_of_eq i : opcode_of i = Z.land (Z.shiftr i 12) 15.
Proof.
  unfold opcode_of. apply uint16_t_small.
  rewrite land_15.
  pose proof (Z.mod_pos_bound (Z.shiftr i 12) (2 ^ 4) ltac:(lia)). lia.
Qed.

Lemma operand_of_eq i : operand_of i = Z.land i 4095.
Proof.
  unfold operand_of. apply uint16_t_small.
  rewrite land_4095.
  pose proof (Z.mod_pos_bound i (2 ^ 12) ltac:(lia)). lia.
Qed.

Lemma opcode_of_range i : 0 <= opcode_of i <= 15.
Proof.
  rewrite opcode_of_eq, land_15.
  pose proof (Z.mod_pos_bound (Z.shiftr i 12) (2 ^ 4) ltac:(lia)). lia.
Qed.

Lemma operand_of_range i : 0 <= operand_of i <= 4095.
Proof.
  rewrite operand_of_eq, land_4095.
  pose proof (Z.mod_pos_bound i (2 ^ 12) ltac:(lia)). lia.
Qed.

Lemma write_uint16_t x : write (uint16_t x) = {| value := uint16_t x |}.
Proof. unfold write. rewrite uint16_t_idemp. reflexivity. Qed.

Lemma write_operand_of i : write (operand_of i) = {| value := operand_of i |}.
Proof. apply write_uint16_t. Qed.

(** [execute], written out on the state: one branch per [case]. *)
Lemma execute_unfold s :
  execute s =
    let operand := operand_of (read (IR s)) in
    let ac := read (AC s) in
    match opcode_of (read (IR s)) with
    | 15 => (Ok tt, with_AC s operand)
    | 2 => (Ok tt, with_AC s (ALU.add ac operand))
    | 3 => (Ok tt, with_AC s (ALU.mul ac operand))
    | 4 => match ALU.div ac operand with
           | Ok q => (Ok tt, with_AC s q)
           | Throw e => (Throw e, s)
           end
    | 5 => match ALU.mod_ ac operand with
           | Ok r => (Ok tt, with_AC s r)
           | Throw e => (Throw e, s)
           end
    | 1 => match writeWord (memory s) operand ac with
           | Ok m' => (Ok tt, with_memory s m')
           | Throw e => (Throw e, s)
           end
    | 0 => match readWord (memory s) operand with
           | Ok w => (Ok tt, with_AC s w)
           | Throw e => (Throw e, s)
           end
    | _ => (Throw UnknownOpcode, s)
    end.
Proof.
  unfold execute, bind, IR_read. cbv zeta.
  set (operand := operand_of (read (IR s))).
  set (ac := read (AC s)).
  assert (Hop : write operand = {| value := operand |})
    by apply write_operand_of.
  destruct (opcode_of (read (IR s))) as [ | p | p ];
    [ | repeat (try reflexivity; destruct p as [ p | p | ]) | reflexivity ];
    unfold AC_read, AC_write, memory_readWord, memory_writeWord, lift, throw,
      with_AC, with_memory; fold ac.
  - (* LDA *)
    destruct (readWord (memory s) operand) as [w | e] eqn:R; [ | reflexivity ].
    destruct (readWord_inv _ _ _ R) as [_ Hw].
    unfold write. rewrite uint16_t_small by exact Hw. reflexivity.
  - (* SEA *) rewrite Hop. reflexivity.
  - (* MOD *)
    unfold ALU.mod_. destruct (operand =? 0); [ reflexivity | ].
    rewrite write_uint16_t. reflexivity.
  - (* MUL *) unfold ALU.mul. rewrite write_uint16_t. reflexivity.
  - (* DIV *)
    unfold ALU.div. destruct (operand =? 0); [ reflexivity | ].
    rewrite write_uint16_t. reflexivity.
  - (* ADD *) unfold ALU.add. rewrite write_uint16_t. reflexivity.
Qed.

(** The sixteen values of the opcode field. *)
Lemma opcode_of_cases i :
  let o := opcode_of i in
  o = 0 \/ o = 1 \/ o = 2 \/ o = 3 \/ o = 4 \/ o = 5 \/ o = 6 \/ o = 7
  \/ o = 8 \/ o = 9 \/ o = 10 \/ o = 11 \/ o = 12 \/ o = 13 \/ o = 14 \/ o = 15.
Proof. intros o. pose proof (opcode_of_range i). subst o. lia. Qed.

Ltac by_opcode s :=
  let Hc := fresh "Hc" in
  pose proof (opcode_of_cases (read (IR s))) as Hc; cbv zeta in Hc;
  repeat (destruct Hc as [Hc | Hc]).

(** C1: [execute] decodes [opcode = (instruction >> 12) & 0xF] and
    [operand = instruction & 0xFFF] from [IR] and dispatches on the opcode:
    0x0 sets [AC] to [readWord(operand)], 0x1 calls
    [writeWord(operand, AC)], 0x2 to 0x5 set [AC] to [add], [mul], [div],
    [mod] of [AC] and the operand, 0xF sets [AC] to the operand, and 0x6 to
    0xE throw [UnknownOpcode]; an exception of the callee is passed on. *)
Theorem execute_dispatch (s : CPU) :
  let instruction := read (IR s) in
  let opcode := opcode_of instruction in
  let operand := operand_of instruction in
  let ac := read (AC s) in
  opcode = Z.land (Z.shiftr instruction 12) 15
  /\ operand = Z.land instruction 4095
  /\ 0 <= opcode <= 15
  /\ (opcode = 0 ->
        execute s = match readWord (memory s) operand with
                    | Ok w => (Ok tt, with_AC s w)
                    | Throw e => (Throw e, s)
                    end)
  /\ (opcode = 1 ->
        execute s = match writeWord (memory s) operand ac with
                    | Ok m' => (Ok tt, with_memory s m')
                    | Throw e => (Throw e, s)
                    end)
  /\ (opcode = 2 -> execute s = (Ok tt, with_AC s (ALU.add ac operand)))
  /\ (opcode = 3 -> execute s = (Ok tt, with_AC s (ALU.mul ac operand)))
  /\ (opcode = 4 ->
        execute s = match ALU.div ac operand with
                    | Ok q => (Ok tt, with_AC s q)
                    | Throw e => (Throw e, s)
                    end)
  /\ (opcode = 5 ->
        execute s = match ALU.mod_ ac operand with
                    | Ok r => (Ok tt, with_AC s r)
                    | Throw e => (Throw e, s)
                    end)
  /\ (opcode = 15 -> execute s = (Ok tt, with_AC s operand))
  /\ (6 <= opcode <= 14 -> execute s = (Throw UnknownOpcode, s)).
Proof.
  intros instruction opcode operand ac.
  split; [ apply opcode_of_eq | ].
  split; [ apply operand_of_eq | ].
  split; [ apply opcode_of_range | ].
  rewrite execute_unfold. cbv zeta. fold instruction opcode operand ac.
  repeat split; intros H; try (rewrite H; reflexivity).
  assert (D : opcode = 6 \/ opcode = 7 \/ opcode = 8 \/ opcode = 9
              \/ opcode = 10 \/ opcode = 11 \/ opcode = 12 \/ opcode = 13
              \/ opcode = 14) by lia.
  repeat (destruct D as [D | D]); rewrite D; reflexivity.
Qed.

(** Where and how [execute] can fail, and that it then leaves the state
    alone. *)
Lemma execute_throw s e s' :
  execute s = (Throw e, s') ->
  let opcode := opcode_of (read (IR s)) in
  let operand := operand_of (read (IR s)) in
  s' = s
  /\ (e = OutOfRange /\ (opcode = 0 \/ opcode = 1) /\ operand = 4095
      \/ e = DivisionByZero /\ (opcode = 4 \/ opcode = 5) /\ operand = 0
      \/ e = UnknownOpcode /\ 6 <= opcode <= 14).
Proof.
  rewrite execute_unfold. cbv zeta.
  pose proof (operand_of_range (read (IR s))) as Hr.
  by_opcode s; rewrite Hc; try discriminate;
    try (intros [= <- <-]; split;
         [ reflexivity | right; right; split; [ reflexivity | lia ] ]).
  - destruct (readWord _ _) eqn:R; [ discriminate | ].
    intros [= <- <-]. apply readWord_throw in R as [-> R].
    unfold MEM_SIZE in R. split; [ reflexivity | left; split; [ reflexivity | lia ] ].
  - destruct (writeWord _ _ _) eqn:W; [ discriminate | ].
    intros [= <- <-]. apply writeWord_throw in W as [-> W].
    unfold MEM_SIZE in W. split; [ reflexivity | left; split; [ reflexivity | lia ] ].
  - unfold ALU.div. destruct (Z.eqb_spec (operand_of (read (IR s))) 0);
      [ | discriminate ].
    intros [= <- <-]. split; [ reflexivity | right; left; split; [ reflexivity | lia ] ].
  - unfold ALU.mod_. destruct (Z.eqb_spec (operand_of (read (IR s))) 0);
      [ | discriminate ].
    intros [= <- <-]. split; [ reflexivity | right; left; split; [ reflexivity | lia ] ].
Qed.

Lemma execute_division_by_zero s :
  opcode_of (read (IR s)) = 4 \/ opcode_of (read (IR s)) = 5 ->
  operand_of (read (IR s)) = 0 ->
  execute s = (Throw DivisionByZero, s).
Proof.
  intros [H | H] H0; rewrite execute_unfold; cbv zeta; rewrite H, H0;
    reflexivity.
Qed.

Lemma execute_unknown_opcode s :
  6 <= opcode_of (read (IR s)) <= 14 ->
  execute s = (Throw UnknownOpcode, s).
Proof.
  intros H. rewrite execute_unfold. cbv zeta.
  by_opcode s; rewrite Hc in *; try lia; reflexivity.
Qed.

Lemma execute_out_of_range s :
  opcode_of (read (IR s)) = 0 \/ opcode_of (read (IR s)) = 1 ->
  operand_of (read (IR s)) = 4095 ->
  execute s = (Throw OutOfRange, s).
Proof.
  intros [H | H] H0; rewrite execute_unfold; cbv zeta; rewrite H, H0;
    reflexivity.
Qed.

Lemma fetch_ok s s' :
  fetch s = (Ok tt, s') ->
  readWord (memory s) (read (PC s)) = Ok (read (IR s'))
  /\ read (PC s') = read (PC s) + 2
  /\ AC s' = AC s
  /\ memory s' = memory s.
Proof.
  rewrite fetch_unfold.
  destruct (readWord (memory s) (read (PC s))) as [w | e] eqn:R;
    [ | discriminate ].
  destruct (readWord_inv _ _ _ R) as [Ha Hw]. unfold MEM_SIZE in Ha.
  intros [= <-]. cbn.
  rewrite (uint16_t_small w) by exact Hw.
  rewrite int_small, uint16_t_small; unfold INT_MIN, INT_MAX; try lia.
  repeat split; reflexivity.
Qed.

Lemma fetch_throw s e s' :
  fetch s = (Throw e, s') -> e = OutOfRange /\ s' = s.
Proof.
  rewrite fetch_unfold.
  destruct (readWord (memory s) (read (PC s))) as [w | e0] eqn:R;
    [ discriminate | ].
  apply readWord_throw in R as [-> _].
  intros [= <- <-]. split; reflexivity.
Qed.

(** C7: [execute] fails with [DivisionByZero] exactly for opcode 0x4 or
    0x5 with operand 0, and with [UnknownOpcode] exactly for the opcodes
    0x6 to 0xE; either way it leaves the state as it found it.  In a cycle
    that ends so, the state is the one [fetch] left: [IR] holds the word
    fetched, [PC] is advanced by 2, [AC] and the memory are as before the
    cycle. *)
Theorem execute_failure_changes_nothing (s : CPU) :
  let opcode := opcode_of (read (IR s)) in
  let operand := operand_of (read (IR s)) in
  (fst (execute s) = Throw DivisionByZero
     <-> (opcode = 4 \/ opcode = 5) /\ operand = 0)
  /\ (fst (execute s) = Throw UnknownOpcode <-> 6 <= opcode <= 14)
  /\ (forall e s',
        execute s = (Throw e, s') ->
        e = DivisionByZero \/ e = UnknownOpcode ->
        s' = s)
  /\ (forall e s',
        cycle s = (Throw e, s') ->
        e = DivisionByZero \/ e = UnknownOpcode ->
        fetch s = (Ok tt, s')
        /\ execute s' = (Throw e, s')
        /\ readWord (memory s) (read (PC s)) = Ok (read (IR s'))
        /\ read (PC s') = read (PC s) + 2
        /\ AC s' = AC s
        /\ memory s' = memory s).
Proof.
  intros opcode operand.
  split; [ | split; [ | split ] ].
  - split.
    + destruct (execute s) as [r s'] eqn:E. cbn. intros ->.
      destruct (execute_throw _ _ _ E) as [_ [(? & _) | [(_ & ? & ?) | (? & _)]]];
        try discriminate.
      split; assumption.
    + intros [H H0]. rewrite execute_division_by_zero by assumption.
      reflexivity.
  - split.
    + destruct (execute s) as [r s'] eqn:E. cbn. intros ->.
      destruct (execute_throw _ _ _ E) as [_ [(? & _) | [(? & _) | (_ & ?)]]];
        try discriminate.
      assumption.
    + intros H. rewrite execute_unknown_opcode by assumption. reflexivity.
  - intros e s' E _. apply (execute_throw _ _ _ E).
  - intros e s' C He. unfold cycle, bind in C.
    destruct (fetch s) as [[[] | e0] s1] eqn:F.
    + destruct (execute_throw _ _ _ C) as [-> _].
      destruct (fetch_ok _ _ F) as (? & ? & ? & ?).
      repeat split; assumption.
    + injection C as <- <-. apply fetch_throw in F as [-> _].
      destruct He; discriminate.
Qed.

(** ** LDA and STA at the top of the operand range *)

Lemma execute_LDA_STA_ok s :
  opcode_of (read (IR s)) = 0 \/ opcode_of (read (IR s)) = 1 ->
  operand_of (read (IR s)) <= 4094 ->
  exists s', execute s = (Ok tt, s').
Proof.
  intros H Hle. destruct (execute s) as [[[] | e] s'] eqn:E.
  - exists s'. reflexivity.
  - destruct (execute_throw _ _ _ E) as [_ [(_ & _ & ?) | [(_ & ? & _) | (_ & ?)]]];
      lia.
Qed.

(** C10: with opcode 0x0 (LDA) or 0x1 (STA), [execute] throws
    [OutOfRange] when the operand is 4095, the word there needing the byte
    at 4096 ([readWord] and [writeWord] accept 4094 and refuse 4095); it
    succeeds for every operand up to 4094, so that it fails only with
    [OutOfRange], only at operand 4095, and without changing the state. *)
Theorem LDA_STA_operand_4095 (s : CPU) :
  let opcode := opcode_of (read (IR s)) in
  let operand := operand_of (read (IR s)) in
  opcode = 0 \/ opcode = 1 ->
  0 <= operand <= 4095
  /\ (operand = 4095 -> execute s = (Throw OutOfRange, s))
  /\ (operand <= 4094 -> exists s', execute s = (Ok tt, s'))
  /\ (forall e s',
        execute s = (Throw e, s') ->
        e = OutOfRange /\ operand = 4095 /\ s' = s)
  /\ readWord (memory s) 4095 = Throw OutOfRange
  /\ (forall v, writeWord (memory s) 4095 v = Throw OutOfRange)
  /\ (exists w, readWord (memory s) 4094 = Ok w)
  /\ (forall v, exists m', writeWord (memory s) 4094 v = Ok m').
Proof.
  intros opcode operand H. subst opcode operand.
  split; [ apply operand_of_range | ].
  split; [ intros H0; apply execute_out_of_range; assumption | ].
  split; [ intros H0; apply execute_LDA_STA_ok; assumption | ].
  split.
  - intros e s' E.
    pose proof (execute_throw _ _ _ E) as X. cbv zeta in X.
    destruct X as [-> [(-> & _ & ?) | [(_ & ? & _) | (_ & ?)]]]; try lia.
    repeat split. assumption.
  - repeat split; try reflexivity; intros; eexists; reflexivity.
Qed.

Lemma LDA_STA_operand_4095_witness :
  let s := mkCPU Register_new (mkRegister 8191) Register_new Memory_new in
  let opcode := opcode_of (read (IR s)) in
  let operand := operand_of (read (IR s)) in
  0 <= operand <= 4095
  /\ (operand = 4095 -> execute s = (Throw OutOfRange, s))
  /\ (operand <= 4094 -> exists s', execute s = (Ok tt, s'))
  /\ (forall e s',
        execute s = (Throw e, s') ->
        e = OutOfRange /\ operand = 4095 /\ s' = s)
  /\ readWord (memory s) 4095 = Throw OutOfRange
  /\ (forall v, writeWord (memory s) 4095 v = Throw OutOfRange)
  /\ (exists w, readWord (memory s) 4094 = Ok w)
  /\ (forall v, exists m', writeWord (memory s) 4094 v = Ok m').
Proof.
  apply (LDA_STA_operand_4095
           (mkCPU Register_new (mkRegister 8191) Register_new Memory_new)).
  right. reflexivity.
Defined.

(** ** End-to-end scenarios *)

Local Open Scope string_scope.

(** The text of scenario 1, loaded into a fresh memory, is the words
    0xF005, 0x2003, 0x1010, 0x0010 at addresses 0, 2, 4, 6. *)
Example scenario_program_words :
  let text := "SEA 0005
ADD 0003
STA 0010
LDA 0010
" in
  exists m,
    loadProgram Memory_new (Some text) = (Ok tt, m)
    /\ readWord m 0 = Ok 61445
    /\ readWord m 2 = Ok 8195
    /\ readWord m 4 = Ok 4112
    /\ readWord m 6 = Ok 16.
Proof.
  intros text.
  exists (snd (loadProgram Memory_new (Some text))).
  vm_compute. repeat split; reflexivity.
Qed.

(** A cycle whose fetch succeeds is [execute] on the state with the word
    fetched in [IR] and [PC] two further. *)
Lemma cycle_fetched s w :
  readWord (memory s) (read (PC s)) = Ok w ->
  cycle s
  = execute (mkCPU (mkRegister (read (PC s) + 2)%Z) (mkRegister w)
                   (AC s) (memory s)).
Proof.
  intros R. unfold cycle, bind. rewrite fetch_unfold, R.
  destruct (readWord_inv _ _ _ R) as [Ha Hw]. unfold MEM_SIZE in Ha.
  unfold write. rewrite (uint16_t_small w) by exact Hw.
  rewrite int_small, uint16_t_small; unfold INT_MIN, INT_MAX; try lia.
  reflexivity.
Qed.

Lemma cycles_S n s :
  cycles (S n) s =
    match cycle s with
    | (Ok _, s') => cycles n s'
    | (Throw e, s') => (Throw e, s')
    end.
Proof. reflexivity. Qed.

(** A word written leaves the words that do not overlap it. *)
Lemma readWord_writeWord_other m a v m' b :
  Memory_wf m -> (0 <= v < 2 ^ 16)%Z ->
  writeWord m a v = Ok m' ->
  (0 <= b)%Z -> (b + 1 < a \/ a + 1 < b)%Z ->
  readWord m' b = readWord m b.
Proof.
  intros Hwf Hv W Hb Hd.
  assert (Ha : (0 <= a <= MEM_SIZE - 2)%Z).
  { destruct (Z.lt_ge_cases a 0);
      [ | destruct (Z.le_gt_cases a (MEM_SIZE - 2)) ];
      try lia; unfold writeWord in W;
      rewrite out_of_range_guard in W by lia; discriminate. }
  destruct (writeWord_ok m a v Hwf Ha Hv) as (m1 & W1 & _ & _ & _ & Hframe).
  rewrite W in W1. injection W1 as <-.
  unfold readWord. rewrite !Hframe by lia. reflexivity.
Qed.

(** C8: from registers at zero and a memory that holds the words of
    [SEA 0005; ADD 0003; STA 0010; LDA 0010] at addresses 0, 2, 4, 6,
    four fetch/execute cycles succeed and leave [AC = 0x0008] and the word
    0x0008 at address 0x10. *)
Theorem scenario_add_store_load (m : Memory) :
  Memory_wf m ->
  readWord m 0 = Ok 61445%Z ->
  readWord m 2 = Ok 8195%Z ->
  readWord m 4 = Ok 4112%Z ->
  readWord m 6 = Ok 16%Z ->
  exists s',
    cycles 4 (CPU_new m) = (Ok tt, s')
    /\ read (AC s') = 8%Z
    /\ readWord (memory s') 16 = Ok 8%Z
    /\ read (PC s') = 8%Z.
Proof.
  intros Hwf R0 R2 R4 R6.
  destruct (writeWord_ok m 16 8 Hwf) as (m1 & W & Hwf1 & Hhi & Hlo & _);
    [ unfold MEM_SIZE; lia | lia | ].
  assert (R16 : readWord m1 16 = Ok 8%Z).
  { rewrite (readWord_cells m1 16 _ _ ltac:(unfold MEM_SIZE; lia) Hhi Hlo).
    reflexivity. }
  assert (R6' : readWord m1 6 = Ok 16%Z).
  { rewrite (readWord_writeWord_other m 16 8 m1 6 Hwf) by (trivial; lia).
    exact R6. }
  unfold CPU_new, Register_new.
  (* SEA 0005 *)
  rewrite cycles_S, (cycle_fetched _ 61445) by exact R0.
  rewrite execute_unfold. cbn [read value PC IR AC memory].
  change (opcode_of 61445) with 15%Z. change (operand_of 61445) with 5%Z.
  cbv beta iota zeta. unfold with_AC. cbn [read value PC IR AC memory].
  (* ADD 0003 *)
  rewrite cycles_S, (cycle_fetched _ 8195) by exact R2.
  rewrite execute_unfold. cbn [read value PC IR AC memory].
  change (opcode_of 8195) with 2%Z. change (operand_of 8195) with 3%Z.
  cbv beta iota zeta. unfold with_AC. cbn [read value PC IR AC memory].
  change (ALU.add 5 3) with 8%Z.
  (* STA 0010 *)
  rewrite cycles_S, (cycle_fetched _ 4112) by exact R4.
  rewrite execute_unfold. cbn [read value PC IR AC memory].
  change (opcode_of 4112) with 1%Z. change (operand_of 4112) with 16%Z.
  cbv beta iota zeta. rewrite W. unfold with_memory.
  cbn [read value PC IR AC memory].
  (* LDA 0010 *)
  rewrite cycles_S, (cycle_fetched _ 16) by exact R6'.
  rewrite execute_unfold. cbn [read value PC IR AC memory].
  change (opcode_of 16) with 0%Z. change (operand_of 16) with 16%Z.
  cbv beta iota zeta. rewrite R16. unfold with_AC.
  cbn [read value PC IR AC memory cycles].
  eexists. split; [ reflexivity | ].
  cbn [read value PC IR AC memory]. repeat split. exact R16.
Qed.

Lemma scenario_add_store_load_witness :
  let text := "SEA 0005
ADD 0003
STA 0010
LDA 0010
" in
  let m := snd (loadProgram Memory_new (Some text)) in
  exists s',
    cycles 4 (CPU_new m) = (Ok tt, s')
    /\ read (AC s') = 8%Z
    /\ readWord (memory s') 16 = Ok 8%Z
    /\ read (PC s') = 8%Z.
Proof.
  intros text m.
  apply (scenario_add_store_load m); vm_compute; reflexivity.
Defined.

(** Scenario 2: [SEA 0000; DIV 0000] stops in the second cycle with
    [DivisionByZero]; [AC] is still 0 and [PC] is past both instructions. *)
Example scenario_division_by_zero :
  let text := "SEA 0000
DIV 0000
" in
  exists s',
    run 2 (CPU_new (snd (loadProgram Memory_new (Some text))))
      = Some (DivisionByZero, s')
    /\ read (AC s') = 0 /\ read (PC s') = 4 /\ read (IR s') = 16384.
Proof.
  intros text.
  exists (snd (cycle (snd (cycle
            (CPU_new (snd (loadProgram Memory_new (Some text)))))))).
  vm_compute. repeat split; reflexivity.
Qed.

(** Scenario 3: a memory whose first word has the unassigned opcode 0x6
    stops in the first cycle with [UnknownOpcode]; only [IR] and [PC] have
    changed, by the fetch. *)
Example scenario_unknown_opcode :
  exists m s',
    writeWord Memory_new 0 24576 = Ok m
    /\ run 1 (CPU_new m) = Some (UnknownOpcode, s')
    /\ read (AC s') = 0 /\ read (PC s') = 2 /\ read (IR s') = 24576
    /\ memory s' = m.
Proof.
  exists (set_cell (set_cell Memory_new 0 96) 1 0).
  exists (snd (cycle (CPU_new (set_cell (set_cell Memory_new 0 96) 1 0)))).
  vm_compute. repeat split; reflexivity.
Qed.

Local Close Scope string_scope.

(** ** The loader: reading a line *)

Local Open Scope string_scope.

(** A base-16 digit is none of the characters the loader and [stoi] give
    a meaning of their own. *)
Lemma hex_digit_char c :
  is_Some (hex_digit c) ->
  isspace c = false
  /\ Ascii.eqb c "-" = false /\ Ascii.eqb c "+" = false
  /\ Ascii.eqb c "x" = false /\ Ascii.eqb c "X" = false
  /\ Ascii.eqb c "010" = false /\ Ascii.eqb c " " = false.
Proof.
  destruct c as [[] [] [] [] [] [] [] []]; intros [d H];
    vm_compute in H; try discriminate H; vm_compute; repeat split.
Qed.

Lemma hex_digit_range c d : hex_digit c = Some d -> (0 <= d < 16)%Z.
Proof.
  destruct c as [[] [] [] [] [] [] [] []]; intros H;
    vm_compute in H; try discriminate H; injection H as <-; lia.
Qed.

Lemma all_hex_cons c s :
  all_hex (String c s) = true <-> is_Some (hex_digit c) /\ all_hex s = true.
Proof.
  cbn [all_hex]. rewrite andb_true_iff, bool_decide_eq_true. reflexivity.
Qed.

Lemma hex_literal_inv s :
  hex_literal s = true ->
  exists c r, s = String c r /\ is_Some (hex_digit c) /\ all_hex r = true.
Proof.
  unfold hex_literal. destruct s as [ | c r ]; [ discriminate | ].
  cbn [String.eqb negb andb]. intros H. apply all_hex_cons in H.
  exists c, r. split; [ reflexivity | exact H ].
Qed.

(** [stoi]'s digit loop on a literal computes the value of the literal. *)
Lemma hex_digits_all_hex s :
  forall acc,
    all_hex s = true ->
    hex_digits acc s
    = fold_left (fun a x => a * 16 + default 0 (hex_digit x))%Z
                (list_ascii_of_string s) acc.
Proof.
  induction s as [ | c s IH ]; intros acc H; [ reflexivity | ].
  apply all_hex_cons in H as [[d Hd] Hs].
  cbn [hex_digits list_ascii_of_string fold_left]. rewrite Hd. cbn [default].
  apply IH, Hs.
Qed.

Lemma strip_0x_hex_literal c r :
  is_Some (hex_digit c) -> all_hex r = true ->
  strip_0x (String c r) = String c r.
Proof.
  intros Hc Hr. unfold strip_0x.
  destruct r as [ | x [ | d r' ] ]; try reflexivity.
  apply all_hex_cons in Hr as [Hx _].
  destruct (hex_digit_char x Hx) as (_ & _ & _ & -> & -> & _).
  cbn [orb]. rewrite andb_false_r. reflexivity.
Qed.

(** [stoi] on a hexadecimal literal that denotes an [int]. *)
Lemma stoi16_hex_literal s :
  hex_literal s = true -> (hex_value s <= INT_MAX)%Z ->
  stoi16 s = Ok (hex_value s) /\ (0 <= hex_value s)%Z.
Proof.
  intros H Hmax.
  assert (Hnn : forall t acc, (0 <= acc)%Z ->
            (0 <= fold_left (fun a x => a * 16 + default 0 (hex_digit x))%Z
                            (list_ascii_of_string t) acc)%Z).
  { induction t as [ | x t IH ]; intros acc Hacc; [ exact Hacc | ].
    cbn [list_ascii_of_string fold_left]. apply IH.
    destruct (hex_digit x) as [d | ] eqn:Hd; cbn; [ | lia ].
    apply hex_digit_range in Hd. lia. }
  split; [ | apply Hnn; lia ].
  destruct (hex_literal_inv s H) as (c & r & -> & Hc & Hr).
  destruct (hex_digit_char c Hc) as (Hsp & Hm & Hp & _).
  unfold stoi16. cbn [skip_space]. rewrite Hsp.
  unfold strip_sign. rewrite Hm, Hp.
  rewrite strip_0x_hex_literal by assumption.
  destruct Hc as [d Hd]. rewrite Hd.
  rewrite hex_digits_all_hex
    by (apply all_hex_cons; split; [ exists d; exact Hd | exact Hr ]).
  fold (hex_value (String c r)).
  pose proof (Hnn (String c r) 0%Z ltac:(lia)) as H0.
  fold (hex_value (String c r)) in H0.
  destruct (Z.ltb_spec (hex_value (String c r)) INT_MIN) as [Hlt | _];
    [ unfold INT_MIN in Hlt; lia | ].
  destruct (Z.gtb_spec (hex_value (String c r)) INT_MAX) as [Hgt | _];
    [ lia | ].
  reflexivity.
Qed.

(** The two fields the loader cuts a line [MNEMONIC OPERAND] into, and the
    opcode it finds for the mnemonic. *)
Lemma source_line_fields k operand :
  String.eqb (source_line k operand) "" = false
  /\ substr_upto (source_line k operand) (find " " (source_line k operand))
     = mnemonic_text k
  /\ substr_after (source_line k operand) (find " " (source_line k operand))
     = operand.
Proof. destruct k; repeat split; reflexivity. Qed.

Lemma mnemonic_opcode k :
  (if String.eqb (mnemonic_text k) "SEA" then 15
   else if String.eqb (mnemonic_text k) "ADD" then 2
   else if String.eqb (mnemonic_text k) "MUL" then 3
   else if String.eqb (mnemonic_text k) "DIV" then 4
   else if String.eqb (mnemonic_text k) "MOD" then 5
   else if String.eqb (mnemonic_text k) "STA" then 1
   else if String.eqb (mnemonic_text k) "LDA" then 0
   else 0)%Z = encoding k.
Proof. destruct k; reflexivity. Qed.

Lemma encoding_range k : (0 <= encoding k <= 15)%Z.
Proof. destruct k; cbn; lia. Qed.

Lemma instruction_word_eq k operand :
  (0 <= hex_value operand < 4096)%Z ->
  instruction_word k operand = (encoding k * 2 ^ 12 + hex_value operand)%Z
  /\ (0 <= instruction_word k operand < 2 ^ 16)%Z.
Proof.
  intros H. unfold instruction_word.
  rewrite lor_shiftl_add by lia.
  pose proof (encoding_range k). lia.
Qed.

(** ** The loader: the lines of a program text *)

Lemma append_empty_r s : s ++ "" = s.
Proof. induction s as [ | x s IH ]; cbn; [ | rewrite IH ]; reflexivity. Qed.

Lemma append_snoc s x t : (s ++ String x "") ++ t = s ++ String x t.
Proof. induction s as [ | y s IH ]; cbn; [ | rewrite IH ]; reflexivity. Qed.

(** [getline] ends a line at the first newline. *)
Lemma getlines_from_line l :
  forall cur rest,
    find "010" l = None ->
    getlines_from cur (l ++ String "010" rest)
    = (cur ++ l) :: getlines_from "" rest.
Proof.
  induction l as [ | x l IH ]; intros cur rest H.
  - cbn. rewrite append_empty_r. reflexivity.
  - cbn [find] in H. cbn [append getlines_from].
    destruct (Ascii.eqb x "010"); [ discriminate | ].
    rewrite IH, append_snoc; [ reflexivity | ].
    destruct (find "010" l); [ discriminate | reflexivity ].
Qed.

Lemma all_hex_no_newline s : all_hex s = true -> find "010" s = None.
Proof.
  induction s as [ | x s IH ]; intros H; [ reflexivity | ].
  apply all_hex_cons in H as [Hx Hs].
  destruct (hex_digit_char x Hx) as (_ & _ & _ & _ & _ & Hnl & _).
  cbn [find]. rewrite Hnl, (IH Hs). reflexivity.
Qed.

Lemma source_line_no_newline k operand :
  all_hex operand = true -> find "010" (source_line k operand) = None.
Proof.
  intros H. apply all_hex_no_newline in H.
  destruct k; cbn; rewrite H; reflexivity.
Qed.

Lemma well_formed_blank p : well_formed (None :: p) <-> well_formed p.
Proof. reflexivity. Qed.

Lemma well_formed_line k operand p :
  well_formed (Some (k, operand) :: p)
  <-> (hex_literal operand = true /\ (0 <= hex_value operand < 4096)%Z)
      /\ well_formed p.
Proof.
  unfold well_formed.
  change (instructions (Some (k, operand) :: p))
    with ((k, operand) :: instructions p).
  rewrite Forall_cons. reflexivity.
Qed.

(** The loader reads back the lines the program was written with. *)
Lemma getlines_program_text p :
  well_formed p -> getlines (program_text p) = map line_of p.
Proof.
  unfold getlines.
  induction p as [ | [[k operand] | ] p IH ]; intros H; [ reflexivity | | ].
  - apply well_formed_line in H as [[Hlit _] Hp].
    cbn [program_text map].
    rewrite getlines_from_line, (IH Hp); [ reflexivity | ].
    apply source_line_no_newline.
    unfold hex_literal in Hlit. apply andb_true_iff in Hlit as [_ Hlit].
    exact Hlit.
  - apply well_formed_blank in H.
    cbn [program_text map line_of].
    rewrite (getlines_from_line "" "" _ eq_refl), (IH H). reflexivity.
Qed.

Local Close Scope string_scope.

(** ** The loader: the loop *)

(** One turn of the loop on a line [MNEMONIC OPERAND]. *)
Lemma load_lines_source_line k operand rest a m :
  hex_literal operand = true -> 0 <= hex_value operand < 4096 ->
  load_lines (source_line k operand :: rest) a m =
    match writeWord m a (instruction_word k operand) with
    | Throw e => (Throw e, m)
    | Ok m' => load_lines rest (int (a + 2)) m'
    end.
Proof.
  intros Hlit Hval.
  destruct (source_line_fields k operand) as (E1 & E2 & E3).
  destruct (stoi16_hex_literal operand Hlit) as [St _];
    [ unfold INT_MAX; lia | ].
  destruct (instruction_word_eq k operand Hval) as [_ Hw].
  cbn [load_lines]. rewrite E1, E2, E3, mnemonic_opcode, St.
  cbv zeta. rewrite (uint16_t_small (hex_value operand)) by lia.
  fold (instruction_word k operand).
  rewrite int_small, uint16_t_small;
    unfold INT_MIN, INT_MAX; try lia.
  reflexivity.
Qed.

(** The loop on a whole program, from address [a]: it succeeds when the
    instructions fit below [MEM_SIZE], puts the word of the [i]-th
    instruction at [a + 2 * i] and leaves the cells outside the program
    alone. *)
Lemma load_lines_program p :
  forall a m,
    well_formed p -> Memory_wf m ->
    0 <= a -> a + 2 * Z.of_nat (length (instructions p)) <= MEM_SIZE ->
    exists m',
      load_lines (map line_of p) a m = (Ok tt, m')
      /\ Memory_wf m'
      /\ (forall j,
            0 <= j ->
            j < a \/ a + 2 * Z.of_nat (length (instructions p)) <= j ->
            cell m' j = cell m j)
      /\ (forall (i : nat) k operand,
            instructions p !! i = Some (k, operand) ->
            readWord m' (a + 2 * Z.of_nat i) = Ok (instruction_word k operand)).
Proof.
  induction p as [ | [[k operand] | ] p IH ]; intros a m Hp Hwf Ha Hfit.
  - exists m. repeat split; try assumption. intros i k operand [=].
  - apply well_formed_line in Hp as [[Hlit Hval] Hp].
    change (instructions (Some (k, operand) :: p))
      with ((k, operand) :: instructions p) in *.
    cbn [length] in Hfit. unfold MEM_SIZE in Hfit.
    cbn [map line_of]. rewrite load_lines_source_line by assumption.
    destruct (instruction_word_eq k operand Hval) as [_ Hw].
    destruct (writeWord_ok m a (instruction_word k operand) Hwf)
      as (m1 & -> & Hwf1 & Hhi & Hlo & Hframe1);
      [ unfold MEM_SIZE; lia | exact Hw | ].
    rewrite int_small by (unfold INT_MIN, INT_MAX; lia).
    destruct (IH (a + 2) m1 Hp Hwf1) as (m' & -> & Hwf' & Hframe & Hwords);
      [ lia | unfold MEM_SIZE; lia | ].
    exists m'. split; [ reflexivity | ]. split; [ exact Hwf' | ]. split.
    + intros j Hj Hout. cbn [length] in Hout.
      rewrite Hframe by lia. apply Hframe1; lia.
    + intros [ | i ] k' operand' Hi.
      * injection Hi as <- <-.
        replace (a + 2 * Z.of_nat 0) with a by lia.
        rewrite (readWord_cells m' a (instruction_word k operand / 2 ^ 8)
                   (instruction_word k operand mod 2 ^ 8));
          [ | unfold MEM_SIZE; lia
            | rewrite Hframe by lia; exact Hhi
            | rewrite Hframe by lia; exact Hlo ].
        f_equal. apply word_of_div_mod, Hw.
      * replace (a + 2 * Z.of_nat (S i)) with (a + 2 + 2 * Z.of_nat i) by lia.
        apply Hwords. exact Hi.
  - apply well_formed_blank in Hp.
    change (instructions (None :: p)) with (instructions p) in *.
    cbn [map line_of load_lines]. cbn [String.eqb].
    apply IH; assumption.
Qed.

(** *** Texts whose last line has no newline *)

Local Open Scope string_scope.

Lemma append_String_assoc s x t u :
  (s ++ String x t) ++ u = s ++ String x (t ++ u).
Proof. induction s as [ | y s IH ]; cbn; [ | rewrite IH ]; reflexivity. Qed.

(** The lines of a text that starts with a program. *)
Lemma getlines_program_text_app p t :
  well_formed p ->
  getlines (program_text p ++ t) = (map line_of p ++ getlines t)%list.
Proof.
  unfold getlines.
  induction p as [ | [[k operand] | ] p IH ]; intros H; [ reflexivity | | ].
  - apply well_formed_line in H as [[Hlit _] Hp].
    cbn [program_text map app]. rewrite append_String_assoc.
    rewrite getlines_from_line, (IH Hp); [ reflexivity | ].
    apply source_line_no_newline.
    unfold hex_literal in Hlit. apply andb_true_iff in Hlit as [_ Hlit].
    exact Hlit.
  - apply well_formed_blank in H.
    cbn [program_text map line_of app]. rewrite append_String_assoc.
    rewrite (getlines_from_line "" "" _ eq_refl), (IH H). reflexivity.
Qed.

(** A last line that the end of the text ends is a line like the
    others. *)
Lemma getlines_from_end l :
  forall cur,
    find "010" l = None -> cur ++ l <> "" ->
    getlines_from cur l = [cur ++ l].
Proof.
  induction l as [ | x l IH ]; intros cur H Hne.
  - rewrite append_empty_r in *. cbn [getlines_from].
    destruct cur; [ contradiction | reflexivity ].
  - cbn [find] in H. cbn [getlines_from].
    destruct (Ascii.eqb x "010"); [ discriminate | ].
    destruct (find "010" l) eqn:F; [ discriminate | ].
    rewrite IH, append_snoc; [ reflexivity | reflexivity | ].
    rewrite append_snoc. destruct cur; discriminate.
Qed.

Lemma instructions_last p last :
  instructions (p ++ [last])%list
  = (instructions p
     ++ match last with Some ins => [ins] | None => [] end)%list.
Proof.
  unfold instructions. rewrite omap_app. destruct last; reflexivity.
Qed.

Lemma well_formed_last p last :
  well_formed (p ++ [last])%list ->
  well_formed p
  /\ match last with
     | Some (_, operand) =>
         hex_literal operand = true /\ (0 <= hex_value operand < 4096)%Z
     | None => True
     end.
Proof.
  unfold well_formed. rewrite instructions_last, Forall_app.
  intros [Hp Hl]. split; [ exact Hp | ].
  destruct last as [[k operand] | ]; [ | exact I ].
  apply Forall_cons in Hl as [Hl _]. exact Hl.
Qed.

(** The lines [getline] gives on the text of [p] followed by a last line
    without its newline ([None]: no such line) are the lines of a
    program with the same instructions. *)
Lemma getlines_program_text_last p last :
  well_formed (p ++ [last])%list ->
  exists q,
    getlines (program_text p ++ line_of last) = map line_of q
    /\ well_formed q
    /\ instructions q = instructions (p ++ [last])%list.
Proof.
  intros H. destruct (well_formed_last p last H) as [Hp Hl].
  destruct last as [[k operand] | ].
  - exists (p ++ [Some (k, operand)])%list.
    split; [ | split; [ exact H | reflexivity ] ].
    rewrite getlines_program_text_app by exact Hp.
    rewrite map_app. f_equal. cbn [map line_of].
    unfold getlines. rewrite getlines_from_end; [ reflexivity | | ].
    + apply source_line_no_newline.
      destruct Hl as [Hlit _]. unfold hex_literal in Hlit.
      apply andb_true_iff in Hlit as [_ Hlit]. exact Hlit.
    + destruct k; discriminate.
  - exists p. cbn [line_of]. rewrite append_empty_r.
    split; [ apply getlines_program_text, Hp | ].
    split; [ exact Hp | ].
    rewrite instructions_last, app_nil_r. reflexivity.
Qed.

Local Close Scope string_scope.



(** An operand literal wider than 12 bits is not cut down: its upper bits
    are or-ed into the opcode field, and [ADD 1005] is stored as 0x3005. *)
Example loadProgram_wide_operand :
  exists m',
    loadProgram Memory_new (Some (program_text [Some (ADD, "1005"%string)]))
    = (Ok tt, m')
    /\ readWord m' 0 = Ok 12293.
Proof.
  exists (snd (loadProgram Memory_new
                 (Some (program_text [Some (ADD, "1005"%string)])))).
  vm_compute. split; reflexivity.
Qed.

Lemma instructions_replicate n (x : Mnemonic * string) :
  instructions (replicate n (Some x)) = replicate n x.
Proof.
  induction n as [ | n IH ]; [ reflexivity | ].
  change (x :: instructions (replicate n (Some x)) = x :: replicate n x).
  rewrite IH. reflexivity.
Qed.

(** A program of 2049 well-formed lines does not fit: the loader stops
    with the [OutOfRange] of [writeWord] at address 4096, and the word of
    its last line is nowhere in the memory it leaves. *)
Lemma loadProgram_2049_lines :
  let p := replicate 2049 (Some (SEA, "0"%string)) in
  let loaded := loadProgram Memory_new (Some (program_text p)) in
  well_formed p
  /\ instructions p !! 2048%nat = Some (SEA, "0"%string)
  /\ fst loaded = Throw OutOfRange
  /\ readWord (snd loaded) (2 * Z.of_nat 2048) = Throw OutOfRange
  /\ readWord (snd loaded) (2 * Z.of_nat 2047) = Ok 61440.
Proof.
  intros p loaded. split; [ | split; [ | split; [ | split ] ] ].
  - unfold well_formed, p. rewrite instructions_replicate.
    apply Forall_replicate.
    split; [ reflexivity | vm_compute; split; [ intros [=] | reflexivity ] ].
  - unfold p. rewrite instructions_replicate.
    apply lookup_replicate_2. lia.
  - vm_compute. reflexivity.
  - reflexivity.
  - vm_compute. reflexivity.
Qed.


(** * Further properties *)

(** ** Memory: what a write leaves and what it overwrites *)

Lemma writeWord_inv m a v m' :
  writeWord m a v = Ok m' ->
  0 <= a <= MEM_SIZE - 2
  /\ m' = set_cell (set_cell m a (Z.land (Z.shiftr v 8) 255)) (a + 1)
                   (Z.land v 255).
Proof.
  unfold writeWord.
  destruct ((a <? 0) || (a >=? MEM_SIZE - 1)) eqn:G; [ discriminate | ].
  intros [= <-]. apply orb_false_iff in G. unfold MEM_SIZE in *.
  split; [ lia | reflexivity ].
Qed.

Lemma uint8_t_range x : 0 <= uint8_t x < 2 ^ 8.
Proof. unfold uint8_t. apply Z.mod_pos_bound. lia. Qed.

Lemma set_cell_bytes m i b : Memory_bytes m -> Memory_bytes (set_cell m i b).
Proof.
  unfold Memory_bytes, set_cell. cbn [mem]. intros H.
  apply Forall_insert; [ exact H | apply uint8_t_range ].
Qed.

(** A cell inside the vector of a memory of bytes is a byte. *)
Lemma cell_byte m i :
  Memory_wf m -> Memory_bytes m -> 0 <= i < MEM_SIZE -> 0 <= cell m i < 2 ^ 8.
Proof.
  unfold Memory_wf, Memory_bytes, cell. intros Hwf Hb Hi.
  apply (Forall_lookup_total_1 (fun b => 0 <= b < 2 ^ 8) (mem m));
    [ exact Hb | lia ].
Qed.

(** X1: a successful [writeWord(a, v)] touches the cells [a] and [a + 1]
    only: every other cell, and every word that does not overlap them,
    reads as before; the memory keeps its size and stays a memory of
    bytes. *)
Theorem writeWord_frame (m : Memory) (a v : Z) (m' : Memory) :
  writeWord m a v = Ok m' ->
  (forall j, 0 <= j -> j <> a -> j <> a + 1 -> cell m' j = cell m j)
  /\ (forall b, 0 <= b -> b + 1 < a \/ a + 1 < b ->
        readWord m' b = readWord m b)
  /\ length (mem m') = length (mem m)
  /\ (Memory_bytes m -> Memory_bytes m').
Proof.
  intros W. destruct (writeWord_inv _ _ _ _ W) as [Ha ->].
  unfold MEM_SIZE in Ha.
  assert (F : forall j, 0 <= j -> j <> a -> j <> a + 1 ->
            cell (set_cell (set_cell m a (Z.land (Z.shiftr v 8) 255)) (a + 1)
                           (Z.land v 255)) j = cell m j).
  { intros j Hj H1 H2. rewrite !cell_set_cell_ne by lia. reflexivity. }
  split; [ exact F | ]. split; [ | split ].
  - intros b Hb Hd. unfold readWord. rewrite !F by lia. reflexivity.
  - unfold set_cell. cbn [mem]. rewrite !length_insert. reflexivity.
  - intros Hb. apply set_cell_bytes, set_cell_bytes, Hb.
Qed.

Lemma writeWord_frame_witness :
  let m' := set_cell (set_cell Memory_new 16 0) 17 8 in
  (forall j, 0 <= j -> j <> 16 -> j <> 16 + 1 -> cell m' j = cell Memory_new j)
  /\ (forall b, 0 <= b -> b + 1 < 16 \/ 16 + 1 < b ->
        readWord m' b = readWord Memory_new b)
  /\ length (mem m') = length (mem Memory_new)
  /\ (Memory_bytes Memory_new -> Memory_bytes m').
Proof.
  intros m'. apply (writeWord_frame Memory_new 16 8 m'). reflexivity.
Defined.

(** X2: a second [writeWord] at the same address makes the first one
    forgotten: the memory is the one the second write alone gives. *)
Theorem writeWord_overwrite (m : Memory) (a v w : Z) (m1 : Memory) :
  writeWord m a v = Ok m1 ->
  writeWord m1 a w = writeWord m a w.
Proof.
  intros W. destruct (writeWord_inv _ _ _ _ W) as [Ha ->].
  unfold writeWord. rewrite in_range_guard by exact Ha.
  cbv zeta. f_equal. unfold set_cell. cbn [mem mpt]. f_equal.
  unfold MEM_SIZE in Ha.
  rewrite (list_insert_insert_ne _ (Z.to_nat a) (Z.to_nat (a + 1))) by lia.
  rewrite !list_insert_insert_eq. reflexivity.
Qed.

Lemma writeWord_overwrite_witness :
  writeWord (set_cell (set_cell Memory_new 16 171) 17 205) 16 8
  = writeWord Memory_new 16 8.
Proof.
  apply (writeWord_overwrite Memory_new 16 43981). reflexivity.
Defined.

(** X3: word accesses need no alignment, and overlapping words share a
    byte: after [writeWord(a, v)] and then [writeWord(a + 1, w)], the word
    at [a + 1] is [w] and the word at [a] is the high byte of [v] followed
    by the high byte of [w]. *)
Theorem writeWord_overlap (m : Memory) (a v w : Z) :
  Memory_wf m -> 0 <= a <= 4093 -> 0 <= v < 2 ^ 16 -> 0 <= w < 2 ^ 16 ->
  exists m1 m2,
    writeWord m a v = Ok m1
    /\ writeWord m1 (a + 1) w = Ok m2
    /\ readWord m2 (a + 1) = Ok w
    /\ readWord m2 a = Ok (v / 2 ^ 8 * 2 ^ 8 + w / 2 ^ 8).
Proof.
  intros Hwf Ha Hv Hw.
  destruct (writeWord_ok m a v Hwf) as (m1 & W1 & Hwf1 & Hhi1 & _ & _);
    [ unfold MEM_SIZE; lia | exact Hv | ].
  destruct (writeWord_ok m1 (a + 1) w Hwf1)
    as (m2 & W2 & _ & Hhi2 & Hlo2 & Hframe2);
    [ unfold MEM_SIZE; lia | exact Hw | ].
  exists m1, m2. split; [ exact W1 | ]. split; [ exact W2 | ]. split.
  - rewrite (readWord_cells m2 (a + 1) _ _ ltac:(unfold MEM_SIZE; lia)
               Hhi2 Hlo2).
    f_equal. apply word_of_div_mod, Hw.
  - assert (Hhi : cell m2 a = v / 2 ^ 8)
      by (rewrite Hframe2 by lia; exact Hhi1).
    rewrite (readWord_cells m2 a _ _ ltac:(unfold MEM_SIZE; lia) Hhi Hhi2).
    f_equal.
    assert (Hq : 0 <= w / 2 ^ 8 < 2 ^ 8)
      by (split; [ apply Z.div_pos; lia | apply Z.div_lt_upper_bound; lia ]).
    assert (Hp : 0 <= v / 2 ^ 8 < 2 ^ 8)
      by (split; [ apply Z.div_pos; lia | apply Z.div_lt_upper_bound; lia ]).
    rewrite lor_shiftl_add by lia. apply uint16_t_small. lia.
Qed.

Lemma writeWord_overlap_witness :
  exists m1 m2,
    writeWord Memory_new 4093 43981 = Ok m1
    /\ writeWord m1 (4093 + 1) 4660 = Ok m2
    /\ readWord m2 (4093 + 1) = Ok 4660
    /\ readWord m2 4093 = Ok (43981 / 2 ^ 8 * 2 ^ 8 + 4660 / 2 ^ 8).
Proof.
  apply (writeWord_overlap Memory_new 4093 43981 4660);
    [ exact Memory_new_wf | lia | lia | lia ].
Defined.

Lemma Memory_new_bytes : Memory_bytes Memory_new.
Proof.
  unfold Memory_bytes, Memory_new. cbn [mem].
  apply Forall_replicate. lia.
Qed.

Lemma cell_Memory_new j : 0 <= j < MEM_SIZE -> cell Memory_new j = 0.
Proof.
  intros Hj. unfold cell, Memory_new. cbn [mem].
  apply lookup_total_replicate_2. unfold MEM_SIZE in *. lia.
Qed.

(** In a memory of bytes the word at [a] is the cell at [a] times 256
    plus the cell at [a + 1], a 16-bit value. *)
Lemma readWord_big_endian (m : Memory) (a : Z) :
  Memory_wf m -> Memory_bytes m -> 0 <= a <= 4094 ->
  readWord m a = Ok (cell m a * 2 ^ 8 + cell m (a + 1))
  /\ 0 <= cell m a * 2 ^ 8 + cell m (a + 1) < 2 ^ 16.
Proof.
  intros Hwf Hb Ha.
  pose proof (cell_byte m a Hwf Hb ltac:(unfold MEM_SIZE; lia)) as Hhi.
  pose proof (cell_byte m (a + 1) Hwf Hb ltac:(unfold MEM_SIZE; lia)) as Hlo.
  split; [ | lia ].
  rewrite (readWord_cells m a _ _ ltac:(unfold MEM_SIZE; lia) eq_refl eq_refl).
  rewrite lor_shiftl_add by lia. f_equal. apply uint16_t_small. lia.
Qed.

(** ** ALU: the arithmetic of 16-bit words *)

(** X4: on 16-bit values [add] and [mul] are commutative and associative,
    [mul] distributes over [add], and 0 and 1 are their units: the
    wrap-around never makes the order of the operations matter. *)
Theorem ALU_add_mul_laws (a b c : Z) :
  0 <= a < 2 ^ 16 -> 0 <= b < 2 ^ 16 -> 0 <= c < 2 ^ 16 ->
  ALU.add a b = ALU.add b a
  /\ ALU.mul a b = ALU.mul b a
  /\ ALU.add (ALU.add a b) c = ALU.add a (ALU.add b c)
  /\ ALU.mul (ALU.mul a b) c = ALU.mul a (ALU.mul b c)
  /\ ALU.mul a (ALU.add b c) = ALU.add (ALU.mul a b) (ALU.mul a c)
  /\ ALU.add a 0 = a
  /\ ALU.mul a 1 = a
  /\ ALU.mul a 0 = 0.
Proof.
  intros Ha Hb Hc. rewrite !ALU_add_eq, !ALU_mul_eq.
  repeat split.
  - f_equal. lia.
  - f_equal. lia.
  - rewrite Zplus_mod_idemp_l, Zplus_mod_idemp_r. f_equal. lia.
  - rewrite Zmult_mod_idemp_l, Zmult_mod_idemp_r. f_equal. lia.
  - rewrite Zmult_mod_idemp_r, <- Zplus_mod. f_equal. lia.
  - rewrite Z.add_0_r. apply Z.mod_small, Ha.
  - rewrite Z.mul_1_r. apply Z.mod_small, Ha.
  - rewrite Z.mul_0_r. reflexivity.
Qed.

Lemma ALU_add_mul_laws_witness :
  ALU.add 65535 40000 = ALU.add 40000 65535
  /\ ALU.mul 65535 40000 = ALU.mul 40000 65535
  /\ ALU.add (ALU.add 65535 40000) 30000 = ALU.add 65535 (ALU.add 40000 30000)
  /\ ALU.mul (ALU.mul 65535 40000) 30000 = ALU.mul 65535 (ALU.mul 40000 30000)
  /\ ALU.mul 65535 (ALU.add 40000 30000)
     = ALU.add (ALU.mul 65535 40000) (ALU.mul 65535 30000)
  /\ ALU.add 65535 0 = 65535
  /\ ALU.mul 65535 1 = 65535
  /\ ALU.mul 65535 0 = 0.
Proof. apply (ALU_add_mul_laws 65535 40000 30000); lia. Defined.

(** ** The instruction word: encoding and decoding *)

Lemma decode_of_encode opc opd :
  0 <= opc <= 15 -> 0 <= opd <= 4095 ->
  let w := Z.lor (Z.shiftl opc 12) opd in
  0 <= w < 2 ^ 16 /\ opcode_of w = opc /\ operand_of w = opd.
Proof.
  intros Hc Hd w. subst w. rewrite lor_shiftl_add by lia.
  split; [ lia | ]. split.
  - rewrite opcode_of_eq, land_15, Z.shiftr_div_pow2 by lia.
    rewrite Z.div_add_l, (Z.div_small opd) by lia.
    rewrite Z.add_0_r. apply Z.mod_small. lia.
  - rewrite operand_of_eq, land_4095.
    rewrite Z.add_comm, Z.mod_add by lia. apply Z.mod_small. lia.
Qed.

(** X5: the word the loader builds from an opcode in [0, 15] and an
    operand in [0, 4095], [(opcode << 12) | operand] as a [uint16_t], is
    decoded by [execute] into the same opcode and operand. *)
Theorem instruction_encode_decode (opc opd : Z) :
  0 <= opc <= 15 -> 0 <= opd <= 4095 ->
  let w := uint16_t (int (Z.lor (Z.shiftl opc 12) opd)) in
  w = opc * 2 ^ 12 + opd /\ opcode_of w = opc /\ operand_of w = opd.
Proof.
  intros Hc Hd w.
  destruct (decode_of_encode opc opd Hc Hd) as (Hw & Ho & Hp).
  subst w. rewrite int_small, uint16_t_small;
    unfold INT_MIN, INT_MAX; try lia.
  split; [ apply lor_shiftl_add; lia | ]. split; assumption.
Qed.

Lemma instruction_encode_decode_witness :
  let w := uint16_t (int (Z.lor (Z.shiftl 15 12) 4095)) in
  w = 15 * 2 ^ 12 + 4095 /\ opcode_of w = 15 /\ operand_of w = 4095.
Proof. apply (instruction_encode_decode 15 4095); lia. Defined.

(** X6: a 16-bit word is given back by encoding the opcode and operand
    [execute] decodes from it: no bit of an instruction is ignored. *)
Theorem instruction_decode_encode (w : Z) :
  0 <= w < 2 ^ 16 ->
  Z.lor (Z.shiftl (opcode_of w) 12) (operand_of w) = w.
Proof.
  intros Hw.
  pose proof (operand_of_range w) as Hr.
  rewrite lor_shiftl_add by lia.
  rewrite opcode_of_eq, operand_of_eq, land_15, land_4095.
  rewrite Z.shiftr_div_pow2 by lia.
  rewrite (Z.mod_small (w / 2 ^ 12))
    by (split; [ apply Z.div_pos; lia | apply Z.div_lt_upper_bound; lia ]).
  pose proof (Z.div_mod w (2 ^ 12) ltac:(lia)). lia.
Qed.

Lemma instruction_decode_encode_witness :
  Z.lor (Z.shiftl (opcode_of 43981) 12) (operand_of 43981) = 43981.
Proof. apply (instruction_decode_encode 43981). lia. Defined.

(** ** CPU: what execute leaves alone *)

Lemma writeWord_set_cells m a v m' :
  writeWord m a v = Ok m' ->
  (forall j, 0 <= j -> j <> a -> j <> a + 1 -> cell m' j = cell m j)
  /\ (Memory_wf m -> Memory_wf m')
  /\ (Memory_bytes m -> Memory_bytes m').
Proof.
  intros W. destruct (writeWord_inv _ _ _ _ W) as [Ha ->].
  unfold MEM_SIZE in Ha. split; [ | split ].
  - intros j Hj H1 H2. rewrite !cell_set_cell_ne by lia. reflexivity.
  - intros H. apply set_cell_wf, set_cell_wf, H.
  - intros H. apply set_cell_bytes, set_cell_bytes, H.
Qed.

(** The states [execute] can leave, by what they share with the state it
    started from. *)
Lemma execute_footprint s r s' :
  execute s = (r, s') ->
  PC s' = PC s /\ IR s' = IR s
  /\ (opcode_of (read (IR s)) <> 1 -> memory s' = memory s)
  /\ (opcode_of (read (IR s)) = 1 ->
        AC s' = AC s
        /\ (r = Ok tt ->
            writeWord (memory s) (operand_of (read (IR s))) (read (AC s))
            = Ok (memory s')))
  /\ (r = Ok tt \/ s' = s).
Proof.
  rewrite execute_unfold. cbv zeta.
  by_opcode s; rewrite Hc;
    repeat match goal with
           | |- context [match ?x with Ok _ => _ | Throw _ => _ end] =>
               destruct x eqn:?
           end;
    intros [= <- <-]; cbn [with_AC with_memory PC IR AC memory];
    repeat split; try (intros; lia); try (intros; discriminate);
    try (left; reflexivity); try (right; reflexivity);
    try (intros; assumption).
Qed.

(** X7: [execute] never writes [PC] or [IR]; it writes the memory only
    for opcode 0x1 (STA), and then the two cells of the operand word and
    not [AC]; and when it throws it has written nothing. *)
Theorem execute_leaves_alone (s : CPU) (r : Result unit) (s' : CPU) :
  execute s = (r, s') ->
  let opcode := opcode_of (read (IR s)) in
  let operand := operand_of (read (IR s)) in
  PC s' = PC s
  /\ IR s' = IR s
  /\ (opcode <> 1 -> memory s' = memory s)
  /\ (opcode = 1 -> AC s' = AC s)
  /\ (forall j, 0 <= j -> j <> operand -> j <> operand + 1 ->
        cell (memory s') j = cell (memory s) j)
  /\ (forall e, r = Throw e -> s' = s).
Proof.
  intros E opcode operand. subst opcode operand.
  destruct (execute_footprint _ _ _ E) as (HPC & HIR & Hmem & Hsta & Hr).
  repeat split; try assumption.
  - intros H. apply Hsta, H.
  - intros j Hj H1 H2.
    destruct (Z.eq_dec (opcode_of (read (IR s))) 1) as [H | H].
    + destruct Hr as [-> | ->]; [ | reflexivity ].
      destruct (Hsta H) as [_ W]. specialize (W eq_refl).
      apply (writeWord_set_cells _ _ _ _ W); assumption.
    + rewrite (Hmem H). reflexivity.
  - intros e ->. destruct Hr as [[=] | ->]. reflexivity.
Qed.

Lemma execute_leaves_alone_witness :
  let s := mkCPU (mkRegister 6) (mkRegister 4112) (mkRegister 8) Memory_new in
  let s' := with_memory s (set_cell (set_cell Memory_new 16 0) 17 8) in
  let opcode := opcode_of (read (IR s)) in
  let operand := operand_of (read (IR s)) in
  PC s' = PC s
  /\ IR s' = IR s
  /\ (opcode <> 1 -> memory s' = memory s)
  /\ (opcode = 1 -> AC s' = AC s)
  /\ (forall j, 0 <= j -> j <> operand -> j <> operand + 1 ->
        cell (memory s') j = cell (memory s) j)
  /\ (forall e, Ok tt = Throw e -> s' = s).
Proof.
  intros s s'. apply (execute_leaves_alone s (Ok tt) s'). reflexivity.
Defined.

(** ** CPU: the invariant of the state *)

Lemma ALU_div_range a b q : ALU.div a b = Ok q -> 0 <= q < 2 ^ 16.
Proof.
  unfold ALU.div. destruct (b =? 0); [ discriminate | ].
  intros [= <-]. apply uint16_t_range.
Qed.

Lemma ALU_mod_range a b r : ALU.mod_ a b = Ok r -> 0 <= r < 2 ^ 16.
Proof.
  unfold ALU.mod_. destruct (b =? 0); [ discriminate | ].
  intros [= <-]. apply uint16_t_range.
Qed.

Lemma fetch_wf s r s' : fetch s = (r, s') -> CPU_wf s -> CPU_wf s'.
Proof.
  rewrite fetch_unfold.
  destruct (readWord (memory s) (read (PC s))); intros [= <- <-];
    [ | trivial ].
  intros (_ & _ & HAC & Hm & Hb).
  repeat split; cbn; try apply uint16_t_range; try apply HAC; assumption.
Qed.

Lemma execute_wf s r s' : execute s = (r, s') -> CPU_wf s -> CPU_wf s'.
Proof.
  intros E (HPC & HIR & HAC & Hm & Hb).
  assert (Hop := operand_of_range (read (IR s))).
  revert E. rewrite execute_unfold. cbv zeta.
  by_opcode s; rewrite Hc;
    repeat match goal with
           | |- context [match ?x with Ok _ => _ | Throw _ => _ end] =>
               destruct x eqn:?
           end;
    intros [= <- <-]; unfold CPU_wf, Register_wf;
    cbn [with_AC with_memory PC IR AC memory value];
    repeat split;
    try apply HPC; try apply HIR; try apply HAC; try assumption; try lia;
    try (rewrite ALU_add_eq; apply Z.mod_pos_bound; lia);
    try (rewrite ALU_mul_eq; apply Z.mod_pos_bound; lia);
    try (eapply readWord_inv; eassumption);
    try (eapply ALU_div_range; eassumption);
    try (eapply ALU_mod_range; eassumption);
    try (eapply writeWord_set_cells; eassumption).
Qed.

Lemma cycle_wf s r s' : cycle s = (r, s') -> CPU_wf s -> CPU_wf s'.
Proof.
  unfold cycle, bind. destruct (fetch s) as [[[] | e] s1] eqn:F.
  - intros E H. apply (execute_wf _ _ _ E), (fetch_wf _ _ _ F), H.
  - intros [= <- <-] H. apply (fetch_wf _ _ _ F), H.
Qed.

Lemma CPU_new_wf m : Memory_wf m -> Memory_bytes m -> CPU_wf (CPU_new m).
Proof.
  intros Hm Hb. unfold CPU_wf, Register_wf, CPU_new. cbn.
  repeat split; try lia; assumption.
Qed.

Lemma cycles_wf n :
  forall s r s', CPU_wf s -> cycles n s = (r, s') -> CPU_wf s'.
Proof.
  induction n as [ | n IH ]; intros s r s' H.
  - intros [= <- <-]. exact H.
  - rewrite cycles_S. destruct (cycle s) as [[[] | e] s1] eqn:C.
    + apply IH, (cycle_wf _ _ _ C), H.
    + intros [= <- <-]. apply (cycle_wf _ _ _ C), H.
Qed.

(** X8: the registers stay 16-bit values and the memory stays 4096 bytes:
    whatever the cycles do, success or failure, from a state with this
    property they leave a state with it. *)
Theorem cycles_keep_invariant (n : nat) (s : CPU) (r : Result unit) (s' : CPU) :
  CPU_wf s -> cycles n s = (r, s') -> CPU_wf s'.
Proof.
  revert s. induction n as [ | n IH ]; intros s H.
  - intros [= <- <-]. exact H.
  - rewrite cycles_S. destruct (cycle s) as [[[] | e] s1] eqn:C.
    + apply IH, (cycle_wf _ _ _ C), H.
    + intros [= <- <-]. apply (cycle_wf _ _ _ C), H.
Qed.

Lemma cycles_keep_invariant_witness :
  CPU_wf (snd (cycles 3 (CPU_new Memory_new))).
Proof.
  apply (cycles_keep_invariant 3 (CPU_new Memory_new)
           (fst (cycles 3 (CPU_new Memory_new)))).
  - apply CPU_new_wf; [ exact Memory_new_wf | exact Memory_new_bytes ].
  - apply surjective_pairing.
Defined.

(** ** CPU: the run is sequential and ends *)

Lemma cycle_ok_PC s s' :
  cycle s = (Ok tt, s') ->
  0 <= read (PC s) <= 4094 /\ read (PC s') = read (PC s) + 2.
Proof.
  unfold cycle, bind. destruct (fetch s) as [[[] | e] s1] eqn:F;
    [ | discriminate ].
  intros E.
  destruct (fetch_ok _ _ F) as (R & HPC & _).
  destruct (readWord_inv _ _ _ R) as [Ha _]. unfold MEM_SIZE in Ha.
  destruct (execute_footprint _ _ _ E) as (-> & _).
  split; [ lia | exact HPC ].
Qed.

Lemma cycle_throw_kind s e s' :
  cycle s = (Throw e, s') ->
  e = OutOfRange \/ e = DivisionByZero \/ e = UnknownOpcode.
Proof.
  unfold cycle, bind. destruct (fetch s) as [[[] | e0] s1] eqn:F.
  - intros E. pose proof (execute_throw _ _ _ E) as X. cbv zeta in X.
    destruct X as [_ [(-> & _) | [(-> & _) | (-> & _)]]]; auto.
  - intros [= <- <-]. apply fetch_throw in F as [-> _]. auto.
Qed.

Lemma cycles_ok_PC n :
  forall s s',
    cycles n s = (Ok tt, s') ->
    read (PC s') = read (PC s) + 2 * Z.of_nat n
    /\ ((0 < n)%nat -> 0 <= read (PC s) /\ read (PC s') <= 4096).
Proof.
  induction n as [ | n IH ]; intros s s'.
  - intros [= <-]. split; [ lia | intros H; inversion H ].
  - rewrite cycles_S. destruct (cycle s) as [[[] | e] s1] eqn:C;
      [ | discriminate ].
    intros E. destruct (cycle_ok_PC _ _ C) as [Hr H1].
    destruct (IH _ _ E) as [H2 H3]. split; [ lia | ].
    intros _. split; [ lia | ].
    destruct n as [ | n ]; [ injection E as <-; lia | ].
    apply H3. lia.
Qed.

(** X9: there is no jump: [n] successful cycles leave [PC] exactly [2 * n]
    past where it was, so the instructions are taken from consecutive
    words, and [PC] never passes 4096. *)
Theorem cycles_advance_PC (n : nat) (s s' : CPU) :
  cycles n s = (Ok tt, s') ->
  read (PC s') = read (PC s) + 2 * Z.of_nat n
  /\ ((0 < n)%nat -> 0 <= read (PC s) /\ read (PC s') <= 4096).
Proof.
  revert s. induction n as [ | n IH ]; intros s.
  - intros [= <-]. split; [ lia | intros H; inversion H ].
  - rewrite cycles_S. destruct (cycle s) as [[[] | e] s1] eqn:C;
      [ | discriminate ].
    intros E. destruct (cycle_ok_PC _ _ C) as [Hr H1].
    destruct (IH _ E) as [H2 H3]. split; [ lia | ].
    intros _. split; [ lia | ].
    destruct n as [ | n ]; [ injection E as <-; lia | ].
    apply H3. lia.
Qed.

Lemma cycles_advance_PC_witness :
  let s := CPU_new Memory_new in
  let s' := snd (cycles 2048 s) in
  read (PC s') = read (PC s) + 2 * Z.of_nat 2048
  /\ ((0 < 2048)%nat -> 0 <= read (PC s) /\ read (PC s') <= 4096).
Proof.
  intros s s'. apply (cycles_advance_PC 2048 s s').
  vm_compute. reflexivity.
Defined.

(** With [n] turns allowed the loop of [run] ends from every state whose
    [PC] is within [2 * n] of the end of the memory. *)
Lemma run_ends n :
  forall s,
    (0 < n)%nat ->
    read (PC s) < 0 \/ 4096 - read (PC s) < 2 * Z.of_nat n ->
    exists e s',
      run n s = Some (e, s')
      /\ (e = OutOfRange \/ e = DivisionByZero \/ e = UnknownOpcode).
Proof.
  induction n as [ | n IH ]; intros s Hn H; [ inversion Hn | ].
  cbn [run]. destruct (cycle s) as [[[] | e] s1] eqn:C.
  - destruct (cycle_ok_PC _ _ C) as [Hr H1].
    apply IH; lia.
  - exists e, s1. split; [ reflexivity | ].
    apply (cycle_throw_kind _ _ _ C).
Qed.

(** X10: the loop of [run] always ends: from every state, at the latest
    the 2049th cycle throws, [OutOfRange], [DivisionByZero] or
    [UnknownOpcode]; there is no other way out of the loop. *)
Theorem run_halts (s : CPU) :
  exists e s',
    run 2049 s = Some (e, s')
    /\ (e = OutOfRange \/ e = DivisionByZero \/ e = UnknownOpcode).
Proof.
  destruct (Z.lt_ge_cases (read (PC s)) 0) as [H | H];
    apply run_ends; lia.
Qed.

(** A run that has ended has thrown in its last cycle, after cycles that
    all succeeded. *)
Lemma run_Some n :
  forall s e s',
    run n s = Some (e, s') ->
    exists (k : nat) s1,
      (k < n)%nat /\ cycles k s = (Ok tt, s1) /\ cycle s1 = (Throw e, s').
Proof.
  induction n as [ | n IH ]; intros s e s'; [ discriminate | ].
  cbn [run]. destruct (cycle s) as [[[] | e0] s1] eqn:C.
  - intros R. destruct (IH _ _ _ R) as (k & s2 & Hk & Hc & Hlast).
    exists (S k), s2. split; [ lia | ]. split; [ | exact Hlast ].
    rewrite cycles_S, C. exact Hc.
  - intros [= <- <-]. exists 0%nat, s. split; [ lia | ].
    split; [ reflexivity | exact C ].
Qed.

(** X11: a run that ends leaves the state of the cycle that threw, and
    that cycle came after at most 2048 successful ones when [PC] was not
    negative at the start; the state it leaves keeps the invariant. *)
Theorem run_result (n : nat) (s : CPU) (e : exception) (s' : CPU) :
  run n s = Some (e, s') ->
  exists (k : nat) s1,
    (k < n)%nat
    /\ cycles k s = (Ok tt, s1)
    /\ cycle s1 = (Throw e, s')
    /\ read (PC s1) = read (PC s) + 2 * Z.of_nat k
    /\ (0 <= read (PC s) -> (k <= 2048)%nat)
    /\ (CPU_wf s -> CPU_wf s').
Proof.
  intros R. destruct (run_Some _ _ _ _ R) as (k & s1 & Hk & Hc & Hlast).
  destruct (cycles_ok_PC _ _ _ Hc) as [HPC Hle].
  exists k, s1.
  split; [ exact Hk | ]. split; [ exact Hc | ]. split; [ exact Hlast | ].
  split; [ exact HPC | ]. split.
  - intros Hp. destruct k as [ | k ]; [ lia | ].
    destruct (Hle ltac:(lia)) as [_ H]. lia.
  - intros Hwf. apply (cycle_wf _ _ _ Hlast), (cycles_wf _ _ _ _ Hwf Hc).
Qed.

Lemma run_result_witness :
  let s := CPU_new Memory_new in
  let s' := mkCPU (mkRegister 4096) (mkRegister 0) (mkRegister 0) Memory_new in
  exists (k : nat) s1,
    (k < 2049)%nat
    /\ cycles k s = (Ok tt, s1)
    /\ cycle s1 = (Throw OutOfRange, s')
    /\ read (PC s1) = read (PC s) + 2 * Z.of_nat k
    /\ (0 <= read (PC s) -> (k <= 2048)%nat)
    /\ (CPU_wf s -> CPU_wf s').
Proof.
  intros s s'. apply (run_result 2049 s OutOfRange s').
  vm_compute. reflexivity.
Defined.

(** ** CPU: store then load *)

(** X12: what STA stores LDA gives back: after [execute] with opcode 0x1
    on an operand up to 4094, [execute] with opcode 0x0 and the same
    operand, on a state with the memory STA left, sets [AC] to the value
    [AC] had when it was stored. *)
Theorem STA_then_LDA (s : CPU) :
  Memory_wf (memory s) -> Register_wf (AC s) ->
  opcode_of (read (IR s)) = 1 -> operand_of (read (IR s)) <= 4094 ->
  exists s1,
    execute s = (Ok tt, s1)
    /\ AC s1 = AC s
    /\ forall s2,
         memory s2 = memory s1 ->
         opcode_of (read (IR s2)) = 0 ->
         operand_of (read (IR s2)) = operand_of (read (IR s)) ->
         execute s2 = (Ok tt, with_AC s2 (read (AC s))).
Proof.
  intros Hwf HAC Hop Hle.
  pose proof (operand_of_range (read (IR s))) as Hr.
  destruct (writeWord_ok (memory s) (operand_of (read (IR s))) (read (AC s)) Hwf)
    as (m1 & W & _ & Hhi & Hlo & _);
    [ unfold MEM_SIZE; lia | exact HAC | ].
  exists (with_memory s m1).
  rewrite execute_unfold. cbv zeta. rewrite Hop, W.
  split; [ reflexivity | ]. split; [ reflexivity | ].
  intros s2 Hm Hop2 Hopd.
  rewrite execute_unfold. cbv zeta. rewrite Hop2, Hopd, Hm.
  cbn [with_memory memory].
  rewrite (readWord_cells m1 (operand_of (read (IR s))) _ _
             ltac:(unfold MEM_SIZE; lia) Hhi Hlo).
  rewrite word_of_div_mod by exact HAC. reflexivity.
Qed.

Lemma STA_then_LDA_witness :
  let s := mkCPU (mkRegister 6) (mkRegister 8190) (mkRegister 43981)
                 Memory_new in
  exists s1,
    execute s = (Ok tt, s1)
    /\ AC s1 = AC s
    /\ forall s2,
         memory s2 = memory s1 ->
         opcode_of (read (IR s2)) = 0 ->
         operand_of (read (IR s2)) = operand_of (read (IR s)) ->
         execute s2 = (Ok tt, with_AC s2 (read (AC s))).
Proof.
  intros s. apply (STA_then_LDA s).
  - exact Memory_new_wf.
  - unfold Register_wf. cbn. lia.
  - reflexivity.
  - vm_compute. intros [=].
Defined.

(** ** main *)

Lemma stoi16_throw s e :
  stoi16 s = Throw e -> e = InvalidArgument \/ e = StoiOutOfRange.
Proof.
  unfold stoi16. destruct (strip_sign (skip_space s)) as [negative s2].
  destruct (strip_0x s2) as [ | d r ]; [ intros [= <-]; auto | ].
  destruct (hex_digit d); [ | intros [= <-]; auto ].
  match goal with
  | |- context [if ?c then _ else _] => destruct c
  end; [ intros [= <-]; auto | discriminate ].
Qed.

(** The exceptions that leave [loadProgram]. *)
Lemma load_lines_throw lines :
  forall a m e m',
    load_lines lines a m = (Throw e, m') ->
    e = OutOfRange \/ e = InvalidArgument \/ e = StoiOutOfRange.
Proof.
  induction lines as [ | line rest IH ]; intros a m e m'; [ discriminate | ].
  cbn [load_lines]. destruct (String.eqb line ""); [ apply IH | ].
  destruct (stoi16 _) as [v | e0] eqn:S.
  - cbv zeta. destruct (writeWord _ _ _) as [m1 | e1] eqn:W; [ apply IH | ].
    intros [= <- <-]. apply writeWord_throw in W as [-> _]. auto.
  - intros [= <- <-]. apply stoi16_throw in S as [-> | ->]; auto.
Qed.

(** X13: [main] always ends, whatever [prog.txt] holds and also without
    it: either [loadProgram] throws and nothing catches it
    ([OutOfRange] of a program too long, or an exception of [stoi]), or
    the loop of [run] ends within 2049 cycles on one of the three
    exceptions of the machine. *)
Theorem main_ends (file : option string) :
  exists exit,
    main file 2049 = Some exit
    /\ match exit with
       | Uncaught e =>
           e = OutOfRange \/ e = InvalidArgument \/ e = StoiOutOfRange
       | Returned e _ =>
           e = OutOfRange \/ e = DivisionByZero \/ e = UnknownOpcode
       end.
Proof.
  unfold main.
  destruct (loadProgram Memory_new file) as [[[] | e] m] eqn:L.
  - destruct (run_ends 2049 (CPU_new m)) as (e & s' & -> & He);
      [ lia | right; cbn; lia | ].
    exists (Returned e s'). split; [ reflexivity | exact He ].
  - exists (Uncaught e). split; [ reflexivity | ].
    destruct file as [text | ]; [ | discriminate ].
    apply (load_lines_throw _ _ _ _ _ L).
Qed.

(** X14: without [prog.txt] the memory stays all zero, every word is
    [LDA 0] and loads 0: the run takes the 2048 words of the memory one
    after the other and ends in the 2049th cycle, on the [OutOfRange] of
    the fetch at address 4096, with nothing but [PC] changed. *)
Theorem main_missing_file :
  main None 2048 = None
  /\ main None 2049
     = Some (Returned OutOfRange
               (mkCPU (mkRegister 4096) (mkRegister 0) (mkRegister 0)
                      Memory_new)).
Proof. split; vm_compute; reflexivity. Qed.

(** ** The loader: programs that do not fit, lines that do not parse *)


(** The loop on a program that does not fit: it stops at the first
    instruction that has no word left. *)
Lemma load_lines_overflow p :
  forall a m,
    well_formed p -> Memory_wf m ->
    0 <= a <= MEM_SIZE ->
    MEM_SIZE < a + 2 * Z.of_nat (length (instructions p)) ->
    exists m',
      load_lines (map line_of p) a m = (Throw OutOfRange, m')
      /\ (forall j, 0 <= j < a -> cell m' j = cell m j)
      /\ (forall (i : nat) k operand,
            a + 2 * Z.of_nat i <= MEM_SIZE - 2 ->
            instructions p !! i = Some (k, operand) ->
            readWord m' (a + 2 * Z.of_nat i) = Ok (instruction_word k operand)).
Proof.
  induction p as [ | [[k operand] | ] p IH ]; intros a m Hp Hwf Ha Hfit.
  - cbn in Hfit. lia.
  - apply well_formed_line in Hp as [[Hlit Hval] Hp].
    change (instructions (Some (k, operand) :: p))
      with ((k, operand) :: instructions p) in *.
    cbn [length] in Hfit. unfold MEM_SIZE in Hfit, Ha.
    cbn [map line_of]. rewrite load_lines_source_line by assumption.
    destruct (instruction_word_eq k operand Hval) as [_ Hw].
    destruct (Z.le_gt_cases a (MEM_SIZE - 2)) as [Hle | Hgt];
      unfold MEM_SIZE in *.
    + destruct (writeWord_ok m a (instruction_word k operand) Hwf)
        as (m1 & -> & Hwf1 & Hhi & Hlo & Hframe1);
        [ unfold MEM_SIZE; lia | exact Hw | ].
      rewrite int_small by (unfold INT_MIN, INT_MAX; lia).
      destruct (IH (a + 2) m1 Hp Hwf1) as (m' & -> & Hframe & Hwords);
        [ unfold MEM_SIZE; lia | unfold MEM_SIZE; lia | ].
      exists m'. split; [ reflexivity | ]. split.
      * intros j Hj. rewrite Hframe by lia. apply Hframe1; lia.
      * intros [ | i ] k' operand' Hi Hl.
        -- injection Hl as <- <-.
           replace (a + 2 * Z.of_nat 0) with a by lia.
           rewrite (readWord_cells m' a (instruction_word k operand / 2 ^ 8)
                      (instruction_word k operand mod 2 ^ 8));
             [ | unfold MEM_SIZE; lia
               | rewrite Hframe by lia; exact Hhi
               | rewrite Hframe by lia; exact Hlo ].
           f_equal. apply word_of_div_mod, Hw.
        -- replace (a + 2 * Z.of_nat (S i)) with (a + 2 + 2 * Z.of_nat i)
             in * by lia.
           apply Hwords; [ lia | exact Hl ].
    + unfold writeWord. rewrite out_of_range_guard by (unfold MEM_SIZE; lia).
      exists m. split; [ reflexivity | ]. split; [ reflexivity | ].
      intros i k' operand' Hi. lia.
  - apply well_formed_blank in Hp.
    change (instructions (None :: p)) with (instructions p) in *.
    cbn [map line_of load_lines]. cbn [String.eqb].
    apply IH; assumption.
Qed.

(** X15: a well-formed program text of more than 2048 instructions,
    its last line ended by a newline or by the end of the text, makes
    [loadProgram] throw [OutOfRange]; the memory then holds the words of
    its first 2048 instructions. *)
Theorem loadProgram_too_long
    (p : program) (last : option (Mnemonic * string)) (m : Memory) :
  well_formed (p ++ [last]) -> Memory_wf m ->
  (2048 < length (instructions (p ++ [last])))%nat ->
  exists m',
    loadProgram m (Some (program_text p ++ line_of last)%string)
    = (Throw OutOfRange, m')
    /\ forall (i : nat) k operand,
         (i < 2048)%nat ->
         instructions (p ++ [last]) !! i = Some (k, operand) ->
         readWord m' (2 * Z.of_nat i)
         = Ok (Z.lor (Z.shiftl (encoding k) 12) (hex_value operand)).
Proof.
  intros Hp Hwf Hlen. unfold loadProgram.
  destruct (getlines_program_text_last p last Hp) as (q & -> & Hq & Hins).
  rewrite <- Hins in *.
  destruct (load_lines_overflow q 0 m Hq Hwf) as (m' & E & _ & Hwords);
    [ unfold MEM_SIZE; lia | unfold MEM_SIZE; lia | ].
  exists m'. split; [ exact E | ].
  intros i k operand Hi Hl.
  apply (Hwords i k operand); [ unfold MEM_SIZE; lia | exact Hl ].
Qed.

Lemma loadProgram_too_long_witness :
  let p := replicate 2048 (Some (ADD, "7"%string)) in
  let last := Some (MUL, "3"%string) in
  exists m',
    loadProgram Memory_new (Some (program_text p ++ line_of last)%string)
    = (Throw OutOfRange, m')
    /\ forall (i : nat) k operand,
         (i < 2048)%nat ->
         instructions (p ++ [last]) !! i = Some (k, operand) ->
         readWord m' (2 * Z.of_nat i)
         = Ok (Z.lor (Z.shiftl (encoding k) 12) (hex_value operand)).
Proof.
  intros p last. apply (loadProgram_too_long p last Memory_new).
  - unfold well_formed, p, last.
    rewrite instructions_last, instructions_replicate.
    apply Forall_app_2.
    + apply Forall_replicate.
      split; [ reflexivity | vm_compute; split; [ intros [=] | reflexivity ] ].
    + apply Forall_cons_2; [ | apply Forall_nil_2 ].
      split; [ reflexivity | vm_compute; split; [ intros [=] | reflexivity ] ].
  - exact Memory_new_wf.
  - unfold p, last.
    rewrite instructions_last, instructions_replicate, length_app,
      length_replicate.
    cbn [length]. lia.
Defined.

Local Open Scope string_scope.



Lemma find_space_append t h :
  find " " t = None ->
  find " " (t ++ String " " h) = Some (String.length t)
  /\ take_str (String.length t) (t ++ String " " h) = t
  /\ drop_str (S (String.length t)) (t ++ String " " h) = h.
Proof.
  induction t as [ | x t IH ]; intros H; [ repeat split; reflexivity | ].
  cbn [find] in H. cbn [append find String.length take_str drop_str].
  destruct (Ascii.eqb x " "); [ discriminate | ].
  destruct (find " " t) eqn:F; [ discriminate | ].
  destruct (IH eq_refl) as (-> & -> & E3).
  repeat split. exact E3.
Qed.

(** X17: the mnemonics are compared as they are written, and a first word
    that is none of them is not refused: the line is loaded as if it
    began with [LDA] (opcode 0), whatever follows it. *)
Theorem load_lines_unknown_mnemonic
    (t operand : string) (rest : list string) (a : Z) (m : Memory) :
  find " " t = None ->
  (forall k, t <> mnemonic_text k) ->
  load_lines ((t ++ " " ++ operand) :: rest) a m
  = load_lines (source_line LDA operand :: rest) a m.
Proof.
  intros Hsp Hk.
  destruct (find_space_append t operand Hsp) as (F & E2 & E3).
  destruct (source_line_fields LDA operand) as (L1 & L2 & L3).
  assert (N : String.eqb (t ++ String " " operand) "" = false)
    by (destruct t; reflexivity).
  cbn [load_lines]. change (" " ++ operand) with (String " " operand).
  rewrite N, L1, L2, L3, F.
  cbn [substr_upto substr_after]. rewrite E2, E3.
  rewrite (proj2 (String.eqb_neq t "SEA") (Hk SEA)).
  rewrite (proj2 (String.eqb_neq t "ADD") (Hk ADD)).
  rewrite (proj2 (String.eqb_neq t "MUL") (Hk MUL)).
  rewrite (proj2 (String.eqb_neq t "DIV") (Hk DIV)).
  rewrite (proj2 (String.eqb_neq t "MOD") (Hk MOD)).
  rewrite (proj2 (String.eqb_neq t "STA") (Hk STA)).
  rewrite (proj2 (String.eqb_neq t "LDA") (Hk LDA)).
  reflexivity.
Qed.

Lemma load_lines_unknown_mnemonic_witness :
  load_lines (("add" ++ " " ++ "0003") :: ["SEA 0005"]) 0 Memory_new
  = load_lines (source_line LDA "0003" :: ["SEA 0005"]) 0 Memory_new.
Proof.
  apply (load_lines_unknown_mnemonic "add" "0003" ["SEA 0005"] 0 Memory_new).
  - reflexivity.
  - intros k. destruct k; discriminate.
Defined.

(** X18: a line that is a mnemonic and nothing else has no space, so the
    loader takes the whole line as the operand too: [stoi] reads [ADD] as
    0xADD and the [D] of [DIV] as 0xD, and the lines are loaded as
    [ADD 0ADD] and [DIV 000D]; the other five mnemonics make [stoi] throw
    [std::invalid_argument]. *)
Theorem load_lines_missing_operand
    (k : Mnemonic) (rest : list string) (a : Z) (m : Memory) :
  load_lines (mnemonic_text k :: rest) a m
  = match k with
    | ADD => load_lines (source_line ADD "0ADD" :: rest) a m
    | DIV => load_lines (source_line DIV "000D" :: rest) a m
    | _ => (Throw InvalidArgument, m)
    end.
Proof. destruct k; reflexivity. Qed.

Local Close Scope string_scope.

(** ** The loader: what may follow an operand *)

Local Open Scope string_scope.

Lemma hex_digits_stop s c junk :
  forall acc,
    all_hex s = true -> hex_digit c = None ->
    hex_digits acc (s ++ String c junk) = hex_digits acc s.
Proof.
  induction s as [ | x s IH ]; intros acc H Hc.
  - cbn. rewrite Hc. reflexivity.
  - apply all_hex_cons in H as [[d Hd] Hs].
    cbn [append hex_digits]. rewrite Hd. apply IH; assumption.
Qed.

Lemma strip_0x_hex_literal_then c0 r c junk :
  is_Some (hex_digit c0) -> all_hex r = true ->
  Ascii.eqb c "x" = false -> Ascii.eqb c "X" = false ->
  strip_0x (String c0 (r ++ String c junk)) = String c0 (r ++ String c junk).
Proof.
  intros H0 Hr Hx HX. unfold strip_0x.
  destruct r as [ | x r ].
  - cbn [append]. destruct junk as [ | d junk ]; [ reflexivity | ].
    rewrite Hx, HX. cbn [orb]. rewrite andb_false_r. reflexivity.
  - apply all_hex_cons in Hr as [Hxh _].
    destruct (hex_digit_char x Hxh) as (_ & _ & _ & Ex & EX & _).
    cbn [append].
    destruct (r ++ String c junk) as [ | d r' ]; [ reflexivity | ].
    rewrite Ex, EX. cbn [orb]. rewrite andb_false_r. reflexivity.
Qed.

(** [stoi] stops at the first character that cannot belong to the
    number. *)
Lemma stoi16_stops s c junk :
  hex_literal s = true -> (hex_value s <= INT_MAX)%Z ->
  hex_digit c = None ->
  Ascii.eqb c "x" = false -> Ascii.eqb c "X" = false ->
  stoi16 (s ++ String c junk) = stoi16 s.
Proof.
  intros H Hmax Hc Hx HX.
  destruct (stoi16_hex_literal s H Hmax) as [-> Hnn].
  destruct (hex_literal_inv s H) as (c0 & r & -> & H0 & Hr).
  destruct (hex_digit_char c0 H0) as (Hsp & Hm & Hp & _).
  unfold stoi16. cbn [append skip_space]. rewrite Hsp.
  unfold strip_sign. rewrite Hm, Hp.
  rewrite strip_0x_hex_literal_then by assumption.
  destruct H0 as [d Hd]. rewrite Hd.
  change (String c0 (r ++ String c junk))
    with (String c0 r ++ String c junk).
  rewrite hex_digits_stop;
    [ | apply all_hex_cons; split; [ exists d; exact Hd | exact Hr ]
      | exact Hc ].
  rewrite hex_digits_all_hex
    by (apply all_hex_cons; split; [ exists d; exact Hd | exact Hr ]).
  fold (hex_value (String c0 r)).
  destruct (Z.ltb_spec (hex_value (String c0 r)) INT_MIN) as [Hlt | _];
    [ unfold INT_MIN in Hlt; lia | ].
  destruct (Z.gtb_spec (hex_value (String c0 r)) INT_MAX) as [Hgt | _];
    [ lia | ].
  reflexivity.
Qed.

(** X19: whatever follows the operand literal on its line is ignored, from
    the first character on that is no base-16 digit (and not the [x] of a
    [0x] prefix): a carriage return left by a file with CR LF line ends,
    or a remark after the operand, changes nothing in what is loaded. *)
Theorem load_lines_trailing_text
    (k : Mnemonic) (operand : string) (c : ascii) (junk : string)
    (rest : list string) (a : Z) (m : Memory) :
  hex_literal operand = true -> (hex_value operand <= INT_MAX)%Z ->
  hex_digit c = None -> c <> "x"%char -> c <> "X"%char ->
  load_lines (source_line k (operand ++ String c junk) :: rest) a m
  = load_lines (source_line k operand :: rest) a m.
Proof.
  intros H Hmax Hc Hx HX.
  apply Ascii.eqb_neq in Hx, HX.
  destruct (source_line_fields k (operand ++ String c junk)) as (E1 & E2 & E3).
  destruct (source_line_fields k operand) as (L1 & L2 & L3).
  cbn [load_lines]. rewrite E1, E2, E3, L1, L2, L3.
  rewrite stoi16_stops by assumption. reflexivity.
Qed.

Lemma load_lines_trailing_text_witness :
  load_lines (source_line SEA ("0005" ++ String "013" "") :: ["ADD 0003"])
             0 Memory_new
  = load_lines (source_line SEA "0005" :: ["ADD 0003"]) 0 Memory_new.
Proof.
  apply (load_lines_trailing_text SEA "0005" "013" "" ["ADD 0003"] 0
           Memory_new).
  - reflexivity.
  - vm_compute. intros [=].
  - reflexivity.
  - discriminate.
  - discriminate.
Defined.

Local Close Scope string_scope.

(** ** Loader and CPU together: straight-line arithmetic *)

(** A cycle on an arithmetic instruction. *)
Lemma cycle_arith s k operand ac' :
  readWord (memory s) (read (PC s)) = Ok (instruction_word k operand) ->
  0 <= hex_value operand < 4096 ->
  Register_wf (AC s) ->
  arith_step (read (AC s)) (k, operand) = Some ac' ->
  cycle s
  = (Ok tt, mkCPU (mkRegister (read (PC s) + 2))
                  (mkRegister (instruction_word k operand))
                  (mkRegister ac') (memory s))
  /\ 0 <= ac' < 2 ^ 16.
Proof.
  intros R Hv HAC Hstep. unfold Register_wf in HAC. fold (read (AC s)) in HAC.
  rewrite (cycle_fetched _ _ R), execute_unfold.
  cbn [read value PC IR AC memory]. cbv zeta.
  destruct (decode_of_encode (encoding k) (hex_value operand)
              (encoding_range k) ltac:(lia)) as (_ & Ho & Hp).
  fold (instruction_word k operand) in Ho, Hp. rewrite Ho, Hp.
  fold (read (AC s)).
  unfold arith_step in Hstep. cbn [fst snd] in Hstep.
  destruct k; cbn [encoding]; try discriminate; unfold with_AC;
    cbn [read value PC IR AC memory].
  - (* SEA *) injection Hstep as <-. split; [ reflexivity | lia ].
  - (* ADD *) injection Hstep as <-. rewrite ALU_add_eq.
    split; [ reflexivity | apply Z.mod_pos_bound; lia ].
  - (* MUL *) injection Hstep as <-. rewrite ALU_mul_eq.
    split; [ reflexivity | apply Z.mod_pos_bound; lia ].
  - (* DIV *)
    destruct (Z.eqb_spec (hex_value operand) 0) as [ | Hnz ];
      [ discriminate | ].
    injection Hstep as <-.
    rewrite ALU_div_nonzero, Z.quot_div_nonneg by lia.
    split; [ reflexivity | ].
    split; [ apply Z.div_pos; lia | ].
    apply Z.div_lt_upper_bound; nia.
  - (* MOD *)
    destruct (Z.eqb_spec (hex_value operand) 0) as [ | Hnz ];
      [ discriminate | ].
    injection Hstep as <-.
    rewrite ALU_mod_nonzero, Z.rem_mod_nonneg by lia.
    split; [ reflexivity | ].
    pose proof (Z.mod_pos_bound (read (AC s)) (hex_value operand)
                  ltac:(lia)). lia.
Qed.

(** The cycles on a run of arithmetic instructions that the memory holds
    from the word [i] on. *)
Lemma cycles_arith m l :
  forall (i : nat) s r,
    memory s = m -> read (PC s) = 2 * Z.of_nat i -> Register_wf (AC s) ->
    (forall (j : nat) k operand,
       l !! j = Some (k, operand) ->
       readWord m (2 * Z.of_nat (i + j)) = Ok (instruction_word k operand)
       /\ 0 <= hex_value operand < 4096) ->
    arith_run (read (AC s)) l = Some r ->
    exists s',
      cycles (length l) s = (Ok tt, s')
      /\ read (AC s') = r
      /\ memory s' = m
      /\ read (PC s') = 2 * Z.of_nat (i + length l).
Proof.
  induction l as [ | [k operand] l IH ]; intros i s r Hm HPC HAC Hl Hrun.
  - injection Hrun as <-. exists s. cbn [length cycles].
    repeat split; try assumption.
    rewrite HPC. f_equal. lia.
  - cbn [arith_run] in Hrun.
    destruct (arith_step (read (AC s)) (k, operand)) as [ac' | ] eqn:Hstep;
      [ | discriminate ].
    destruct (Hl 0%nat k operand eq_refl) as [R Hv].
    rewrite Nat.add_0_r, <- HPC, <- Hm in R.
    destruct (cycle_arith s k operand ac' R Hv HAC Hstep) as [C Hac'].
    cbn [length]. rewrite cycles_S, C.
    destruct (IH (S i)
                (mkCPU (mkRegister (read (PC s) + 2))
                       (mkRegister (instruction_word k operand))
                       (mkRegister ac') (memory s)) r)
      as (s' & E & HAC' & Hm' & HPC').
    + exact Hm.
    + cbn [read value PC]. rewrite HPC. lia.
    + exact Hac'.
    + intros j k' operand' Hj.
      replace (S i + j)%nat with (i + S j)%nat by lia.
      apply Hl. exact Hj.
    + exact Hrun.
    + exists s'. split; [ exact E | ]. split; [ exact HAC' | ].
      split; [ exact Hm' | ]. rewrite HPC'. f_equal. lia.
Qed.

(** X20: loading and running agree with the arithmetic: for a well-formed
    program text of SEA, ADD, MUL, DIV and MOD lines that never divides
    by zero, its last line ended by a newline or by the end of the text,
    as many cycles as it has instructions succeed on the loaded memory
    and leave in [AC] the number the instructions stand for, computed
    from 0 with 16-bit wrap-around; the memory is as loaded and [PC] is
    past the program. *)
Theorem arithmetic_program_runs
    (p : program) (last : option (Mnemonic * string)) (m0 : Memory) (r : Z) :
  well_formed (p ++ [last]) -> Memory_wf m0 ->
  (length (instructions (p ++ [last])) <= 2048)%nat ->
  arith_run 0 (instructions (p ++ [last])) = Some r ->
  exists m s',
    loadProgram m0 (Some (program_text p ++ line_of last)%string) = (Ok tt, m)
    /\ cycles (length (instructions (p ++ [last]))) (CPU_new m) = (Ok tt, s')
    /\ read (AC s') = r
    /\ memory s' = m
    /\ read (PC s') = 2 * Z.of_nat (length (instructions (p ++ [last]))).
Proof.
  intros Hp Hwf Hlen Hrun. unfold loadProgram.
  destruct (getlines_program_text_last p last Hp) as (q & -> & Hq & Hins).
  rewrite <- Hins in *.
  destruct (load_lines_program q 0 m0 Hq Hwf) as (m & E & _ & _ & Hwords);
    [ lia | unfold MEM_SIZE; lia | ].
  exists m.
  destruct (cycles_arith m (instructions q) 0%nat (CPU_new m) r)
    as (s' & C & HAC & Hm & HPC); try reflexivity.
  - unfold Register_wf. cbn. lia.
  - intros j k operand Hj. split.
    + apply (Hwords j k operand Hj).
    + unfold well_formed in Hq.
      apply (Forall_lookup_1 _ _ _ _ Hq Hj).
  - exact Hrun.
  - exists s'. repeat split; assumption.
Qed.

Lemma arithmetic_program_runs_witness :
  let p := [Some (SEA, "0005"%string); Some (ADD, "0003"%string); None;
            Some (MUL, "0FFF"%string); Some (DIV, "0004"%string)] in
  let last := Some (MOD, "0064"%string) in
  exists m s',
    loadProgram Memory_new (Some (program_text p ++ line_of last)%string)
    = (Ok tt, m)
    /\ cycles (length (instructions (p ++ [last]))) (CPU_new m) = (Ok tt, s')
    /\ read (AC s') = 90
    /\ memory s' = m
    /\ read (PC s') = 2 * Z.of_nat (length (instructions (p ++ [last]))).
Proof.
  intros p last. apply (arithmetic_program_runs p last Memory_new 90).
  - unfold well_formed.
    change (instructions (p ++ [last]))
      with [(SEA, "0005"%string); (ADD, "0003"%string);
            (MUL, "0FFF"%string); (DIV, "0004"%string);
            (MOD, "0064"%string)].
    repeat (apply Forall_cons_2;
            [ split; [ reflexivity
                     | vm_compute; split; [ intros [=] | reflexivity ] ] | ]).
    apply Forall_nil_2.
  - exact Memory_new_wf.
  - cbn. lia.
  - vm_compute. reflexivity.
Defined.

(** ** Console output: numbers in base 16 *)

Local Open Scope string_scope.

Lemma hex_fold_app s t : forall a, hex_fold a (s ++ t) = hex_fold (hex_fold a s) t.
Proof.
  unfold hex_fold. induction s as [ | x s IH ]; intros a; [ reflexivity | ].
  cbn [append list_ascii_of_string fold_left]. apply IH.
Qed.

Lemma all_hex_app s t :
  all_hex s = true -> all_hex t = true -> all_hex (s ++ t) = true.
Proof.
  induction s as [ | x s IH ]; intros Hs Ht; [ exact Ht | ].
  apply all_hex_cons in Hs as [Hx Hs]. cbn [append].
  apply all_hex_cons. split; [ exact Hx | apply IH; assumption ].
Qed.

Lemma length_append s t :
  String.length (s ++ t) = (String.length s + String.length t)%nat.
Proof. induction s as [ | x s IH ]; cbn; [ | rewrite IH ]; reflexivity. Qed.

Lemma hex_digit_hex_char d :
  (0 <= d < 16)%Z -> hex_digit (hex_char d) = Some d.
Proof.
  intros H.
  assert (D : (d = 0 \/ d = 1 \/ d = 2 \/ d = 3 \/ d = 4 \/ d = 5 \/ d = 6
               \/ d = 7 \/ d = 8 \/ d = 9 \/ d = 10 \/ d = 11 \/ d = 12
               \/ d = 13 \/ d = 14 \/ d = 15)%Z) by lia.
  repeat (destruct D as [-> | D]; [ reflexivity | ]). subst d. reflexivity.
Qed.

Lemma to_hex_from_S f n acc :
  to_hex_from (S f) n acc
  = if (n <? 16)%Z then String (hex_char (n mod 16)) acc
    else to_hex_from f (n / 16) (String (hex_char (n mod 16)) acc).
Proof. reflexivity. Qed.

(** The digits [to_hex_from] puts before [acc], with [f + 1] turns for a
    number below [16 ^ (f + 1)]. *)
Lemma to_hex_from_spec f :
  forall n acc,
    (0 <= n < 16 ^ Z.of_nat (S f))%Z ->
    exists d,
      to_hex_from (S f) n acc = d ++ acc
      /\ d <> ""
      /\ all_hex d = true
      /\ (forall a, hex_fold a d = a * 16 ^ Z.of_nat (String.length d) + n)%Z
      /\ (forall w : nat, (0 < w)%nat -> (n < 16 ^ Z.of_nat w)%Z ->
            (String.length d <= w)%nat).
Proof.
  assert (One : forall n acc, (0 <= n < 16)%Z ->
            exists d,
              String (hex_char (n mod 16)) acc = d ++ acc
              /\ d <> ""
              /\ all_hex d = true
              /\ (forall a,
                    hex_fold a d = a * 16 ^ Z.of_nat (String.length d) + n)%Z
              /\ (forall w : nat, (0 < w)%nat -> (n < 16 ^ Z.of_nat w)%Z ->
                    (String.length d <= w)%nat)).
  { intros n acc Hn. exists (String (hex_char (n mod 16)) "").
    rewrite Z.mod_small by lia.
    split; [ reflexivity | ]. split; [ discriminate | ]. split.
    - apply all_hex_cons. rewrite hex_digit_hex_char by lia.
      split; [ eexists; reflexivity | reflexivity ].
    - split.
      + intros a. unfold hex_fold. cbn [list_ascii_of_string fold_left].
        rewrite hex_digit_hex_char by lia. cbn. lia.
      + intros w Hw _. cbn. lia. }
  induction f as [ | f IH ]; intros n acc Hn.
  - rewrite to_hex_from_S. cbn [to_hex_from].
    change (16 ^ Z.of_nat 1)%Z with 16%Z in Hn.
    destruct (n <? 16)%Z; apply One; lia.
  - rewrite to_hex_from_S.
    destruct (Z.ltb_spec n 16) as [Hlt | Hge]; [ apply One; lia | ].
    assert (Hq : (0 <= n / 16 < 16 ^ Z.of_nat (S f))%Z).
    { split; [ apply Z.div_pos; lia | ].
      apply Z.div_lt_upper_bound; [ lia | ].
      replace (16 ^ Z.of_nat (S (S f)))%Z
        with (16 * 16 ^ Z.of_nat (S f))%Z in Hn; [ lia | ].
      rewrite (Nat2Z.inj_succ (S f)), Z.pow_succ_r by lia. reflexivity. }
    destruct (IH (n / 16)%Z (String (hex_char (n mod 16)) acc) Hq)
      as (d & -> & Hne & Hall & Hval & Hlen).
    pose proof (Z.mod_pos_bound n 16 ltac:(lia)) as Hm.
    exists (d ++ String (hex_char (n mod 16)) "").
    split; [ rewrite append_String_assoc; reflexivity | ].
    split; [ destruct d; [ contradiction | discriminate ] | ].
    split; [ | split ].
    + apply all_hex_app; [ exact Hall | ].
      apply all_hex_cons. rewrite hex_digit_hex_char by lia.
      split; [ eexists; reflexivity | reflexivity ].
    + intros a. rewrite hex_fold_app, Hval, length_append.
      unfold hex_fold at 1. cbn [list_ascii_of_string fold_left String.length].
      rewrite hex_digit_hex_char by lia. cbn [default from_option id].
      rewrite Nat2Z.inj_add, Z.pow_add_r by lia.
      change (16 ^ Z.of_nat 1)%Z with 16%Z.
      pose proof (Z.div_mod n 16 ltac:(lia)). lia.
    + intros w Hw Hnw. rewrite length_append. cbn [String.length].
      destruct w as [ | w ]; [ lia | ].
      destruct w as [ | w ]; [ change (16 ^ Z.of_nat 1)%Z with 16%Z in Hnw; lia | ].
      assert ((String.length d <= S w)%nat); [ | lia ].
      apply Hlen; [ lia | ].
      apply Z.div_lt_upper_bound; [ lia | ].
      rewrite (Nat2Z.inj_succ (S w)), Z.pow_succ_r in Hnw by lia. exact Hnw.
Qed.

(** What [std::hex] prints reads back as the number printed. *)
Lemma to_hex_spec n :
  (0 <= n)%Z ->
  to_hex n <> ""
  /\ all_hex (to_hex n) = true
  /\ hex_value (to_hex n) = n
  /\ (forall w : nat, (0 < w)%nat -> (n < 16 ^ Z.of_nat w)%Z ->
        (String.length (to_hex n) <= w)%nat).
Proof.
  intros Hn. unfold to_hex.
  assert (Hb : (0 <= n < 16 ^ Z.of_nat (S (Z.to_nat (Z.log2 n))))%Z).
  { split; [ exact Hn | ].
    pose proof (Z.log2_nonneg n) as Hl.
    rewrite Nat2Z.inj_succ, Z2Nat.id by exact Hl.
    destruct (Z.eq_dec n 0) as [-> | Hnz].
    - apply Z.pow_pos_nonneg; lia.
    - apply Z.lt_le_trans with (2 ^ Z.succ (Z.log2 n))%Z.
      + apply Z.log2_spec. lia.
      + apply Z.pow_le_mono_l. lia. }
  destruct (to_hex_from_spec _ n "" Hb) as (d & -> & Hne & Hall & Hval & Hlen).
  rewrite append_empty_r.
  split; [ exact Hne | ]. split; [ exact Hall | ]. split; [ | exact Hlen ].
  change (hex_value d) with (hex_fold 0 d). rewrite Hval. lia.
Qed.

Lemma fill_string_zero k :
  all_hex (fill_string k "0") = true
  /\ (forall a, hex_fold a (fill_string k "0") = a * 16 ^ Z.of_nat k)%Z
  /\ String.length (fill_string k "0") = k.
Proof.
  induction k as [ | k (IH1 & IH2 & IH3) ].
  - repeat split. intros a. cbn. lia.
  - split; [ | split ].
    + cbn [fill_string]. apply all_hex_cons.
      split; [ eexists; reflexivity | exact IH1 ].
    + intros a. cbn [fill_string]. unfold hex_fold.
      cbn [list_ascii_of_string fold_left].
      fold (hex_fold (a * 16 + default 0 (hex_digit "0")) (fill_string k "0")).
      rewrite IH2. change (default 0 (hex_digit "0"))%Z with 0%Z.
      rewrite Nat2Z.inj_succ, Z.pow_succ_r by lia. lia.
    + cbn [fill_string String.length]. rewrite IH3. reflexivity.
Qed.

(** A number below [16 ^ w] printed with [setw(w)] and [setfill('0')]:
    [w] base-16 digits that denote it. *)
Lemma setw_to_hex (w : nat) n :
  (0 < w)%nat -> (0 <= n < 16 ^ Z.of_nat w)%Z ->
  String.length (setw w "0" (to_hex n)) = w
  /\ all_hex (setw w "0" (to_hex n)) = true
  /\ hex_literal (setw w "0" (to_hex n)) = true
  /\ hex_value (setw w "0" (to_hex n)) = n.
Proof.
  intros Hw Hn.
  destruct (to_hex_spec n ltac:(lia)) as (Hne & Hall & Hval & Hlen).
  specialize (Hlen w Hw ltac:(lia)).
  destruct (fill_string_zero (w - String.length (to_hex n)))
    as (F1 & F2 & F3).
  unfold setw.
  assert (A : all_hex (fill_string (w - String.length (to_hex n)) "0"
                       ++ to_hex n) = true)
    by (apply all_hex_app; assumption).
  assert (L : String.length (fill_string (w - String.length (to_hex n)) "0"
                             ++ to_hex n) = w)
    by (rewrite length_append, F3; lia).
  split; [ exact L | ]. split; [ exact A | ]. split.
  - unfold hex_literal. rewrite A, andb_true_r.
    destruct (fill_string (w - String.length (to_hex n)) "0" ++ to_hex n);
      [ cbn in L; lia | reflexivity ].
  - change (hex_value ?s) with (hex_fold 0 s).
    rewrite hex_fold_app, F2. cbn [Z.mul]. exact Hval.
Qed.

Local Close Scope string_scope.

(** ** Console output: words and lines *)

Local Open Scope string_scope.

Lemma find_None_cons c x s :
  find c (String x s) = None -> Ascii.eqb x c = false /\ find c s = None.
Proof.
  cbn [find]. destruct (Ascii.eqb x c); [ discriminate | ].
  destruct (find c s); [ discriminate | ]. split; reflexivity.
Qed.

(** A word ends at the first space or newline. *)
Lemma words_from_word tok :
  forall cur rest sep,
    find " " tok = None -> find "010" tok = None ->
    Ascii.eqb sep " " || Ascii.eqb sep "010" = true ->
    cur ++ tok <> "" ->
    words_from cur (tok ++ String sep rest) = (cur ++ tok) :: words_from "" rest.
Proof.
  induction tok as [ | x tok IH ]; intros cur rest sep Hsp Hnl Hsep Hne.
  - rewrite append_empty_r in *. cbn [append words_from]. rewrite Hsep.
    destruct cur; [ contradiction | reflexivity ].
  - apply find_None_cons in Hsp as [Ex Hsp].
    apply find_None_cons in Hnl as [En Hnl].
    cbn [append words_from]. rewrite Ex, En. cbn [orb].
    rewrite IH, append_snoc; try assumption; [ reflexivity | ].
    rewrite append_snoc. destruct cur; discriminate.
Qed.

Lemma all_hex_no_space s : all_hex s = true -> find " " s = None.
Proof.
  induction s as [ | x s IH ]; intros H; [ reflexivity | ].
  apply all_hex_cons in H as [Hx Hs].
  destruct (hex_digit_char x Hx) as (_ & _ & _ & _ & _ & _ & Hsp).
  cbn [find]. rewrite Hsp, (IH Hs). reflexivity.
Qed.

(** A text without a newline put before the line being read. *)
Lemma getlines_from_prefix a :
  forall cur t,
    find "010" a = None ->
    getlines_from cur (a ++ t) = getlines_from (cur ++ a) t.
Proof.
  induction a as [ | x a IH ]; intros cur t H.
  - rewrite append_empty_r. reflexivity.
  - apply find_None_cons in H as [En H].
    cbn [append getlines_from]. rewrite En, IH, append_snoc by exact H.
    reflexivity.
Qed.

Lemma endl_append s : endl ++ s = String "010" s.
Proof. reflexivity. Qed.

Local Close Scope string_scope.

(** ** Memory: dump *)

Section Dump_loop.

(** A way to print a cell, [token], and a way to read it back. *)
Variable per_line : Z.
Variable token : Z -> string.
Variable decode : string -> Z.
Variable token_length : nat.
Variable well_printed : string -> Prop.

Hypothesis token_no_space :
  forall b, 0 <= b < 2 ^ 8 -> find " "%char (token b) = None.
Hypothesis token_no_newline :
  forall b, 0 <= b < 2 ^ 8 -> find "010"%char (token b) = None.
Hypothesis token_length_eq :
  forall b, 0 <= b < 2 ^ 8 -> String.length (token b) = S token_length.
Hypothesis decode_token :
  forall b, 0 <= b < 2 ^ 8 -> decode (token b) = b.
Hypothesis token_well_printed :
  forall b, 0 <= b < 2 ^ 8 -> well_printed (token b).

(** The words of what the loop prints are the cells of the range, one
    after the other, each followed by one character. *)
Lemma dump_loop_words m start end_ n :
  forall i,
    (forall j, i <= j < i + Z.of_nat n -> 0 <= cell m j < 2 ^ 8) ->
    words (dump_loop per_line token m start end_ n i)
    = map token (cells m i n)
    /\ map decode (map token (cells m i n)) = cells m i n
    /\ Forall (fun w => String.length w = S token_length /\ well_printed w)
              (map token (cells m i n))
    /\ String.length (dump_loop per_line token m start end_ n i)
       = (n * (S token_length + 1))%nat.
Proof.
  induction n as [ | n IH ]; intros i Hb.
  - repeat split. constructor.
  - assert (Hc : 0 <= cell m i < 2 ^ 8) by (apply Hb; lia).
    destruct (IH (i + 1)) as (IH1 & IH2 & IH3 & IH4);
      [ intros j Hj; apply Hb; lia | ].
    cbn [dump_loop cells map].
    assert (Hsep : exists sep,
              (if (Z.rem (i - start + 1) per_line =? 0) || (i =? end_)
               then endl else String " "%char EmptyString)
              = String sep EmptyString
              /\ (Ascii.eqb sep " " || Ascii.eqb sep "010")%bool = true).
    { destruct ((Z.rem (i - start + 1) per_line =? 0) || (i =? end_));
        eexists; split; reflexivity. }
    destruct Hsep as (sep & -> & Hsep).
    change (String sep "" ++ ?x)%string with (String sep x).
    split; [ | split; [ | split ] ].
    + unfold words in *.
      rewrite words_from_word;
        [ cbn [append]; rewrite IH1; reflexivity
        | apply token_no_space, Hc
        | apply token_no_newline, Hc
        | exact Hsep
        | ].
      cbn [append]. intros E.
      pose proof (token_length_eq _ Hc) as L. rewrite E in L. discriminate.
    + rewrite decode_token by exact Hc. f_equal. exact IH2.
    + constructor; [ | exact IH3 ].
      split; [ apply token_length_eq, Hc | apply token_well_printed, Hc ].
    + rewrite length_append, token_length_eq by exact Hc.
      cbn [String.length]. rewrite IH4. lia.
Qed.

End Dump_loop.

Lemma dump_hex_loop_eq m start end_ n :
  forall i,
    dump_hex_loop m start end_ n i
    = dump_loop 16 (fun b => setw 2 "0" (to_hex b)) m start end_ n i.
Proof.
  induction n as [ | n IH ]; intros i; [ reflexivity | ].
  cbn [dump_hex_loop dump_loop]. rewrite IH. reflexivity.
Qed.

Lemma dump_bin_loop_eq m start end_ n :
  forall i,
    dump_bin_loop m start end_ n i = dump_loop 8 bitset8 m start end_ n i.
Proof.
  induction n as [ | n IH ]; intros i; [ reflexivity | ].
  cbn [dump_bin_loop dump_loop]. rewrite IH. reflexivity.
Qed.

Lemma dump_guard start end_ :
  0 <= start <= end_ /\ end_ <= MEM_SIZE - 1 ->
  (start <? 0) || (end_ >=? MEM_SIZE) || (start >? end_) = false.
Proof.
  unfold MEM_SIZE. intros H.
  destruct (Z.ltb_spec start 0); [ lia | ].
  destruct (Z.geb_spec end_ 4096); [ lia | ].
  destruct (Z.gtb_spec start end_); [ lia | ]. reflexivity.
Qed.

(** X21: [dump(start, end, format)] throws [OutOfRange], before it prints
    anything, exactly when [start < 0], [end >= 4096] or [start > end]:
    a range within the memory is printed whatever [format] is, the last
    address 4095 and a single cell included. *)
Theorem dump_bounds (m : Memory) (start end_ format : Z) :
  (dump m start end_ format = Throw OutOfRange
     <-> start < 0 \/ end_ >= MEM_SIZE \/ start > end_)
  /\ ((exists text, dump m start end_ format = Ok text)
        <-> 0 <= start <= end_ /\ end_ <= 4095).
Proof.
  unfold dump.
  destruct ((start <? 0) || (end_ >=? MEM_SIZE) || (start >? end_)) eqn:G.
  - assert (H : start < 0 \/ end_ >= MEM_SIZE \/ start > end_).
    { apply orb_true_iff in G as [G | G];
        [ apply orb_true_iff in G as [G | G] | ]; unfold MEM_SIZE in *; lia. }
    split; [ split; [ intros _; exact H | reflexivity ] | ].
    split; [ intros [text [=]] | unfold MEM_SIZE in H; lia ].
  - apply orb_false_iff in G as [G G3]. apply orb_false_iff in G as [G1 G2].
    unfold MEM_SIZE in *.
    split; [ split; [ discriminate | lia ] | ].
    split; [ lia | intros _; eexists; reflexivity ].
Qed.

Lemma cells_bytes m start n :
  Memory_wf m -> Memory_bytes m ->
  0 <= start -> start + Z.of_nat n <= MEM_SIZE ->
  forall j, start <= j < start + Z.of_nat n -> 0 <= cell m j < 2 ^ 8.
Proof. intros Hwf Hb Hs He j Hj. apply cell_byte; try assumption. lia. Qed.

(** X22: the hexadecimal dump can be read back: for a range within the
    memory, [dump] with format 16 prints the header and then, for each
    cell of the range in order, two base-16 digits that denote it and
    one space or newline: the words of the body are two characters
    each, base-16 digits both, and their values are the cells. *)
Theorem dump_hex_reads_back (m : Memory) (start end_ : Z) :
  Memory_wf m -> Memory_bytes m ->
  0 <= start <= end_ -> end_ <= 4095 ->
  let n := Z.to_nat (end_ - start + 1) in
  exists body,
    dump m start end_ 16 = Ok (dump_header 16 ++ body)%string
    /\ map hex_value (words body) = cells m start n
    /\ Forall (fun w => String.length w = 2%nat /\ all_hex w = true)
              (words body)
    /\ String.length body = (3 * n)%nat.
Proof.
  intros Hwf Hb Hs He n.
  exists (dump_body m start end_ 16). unfold dump.
  rewrite dump_guard by (unfold MEM_SIZE; lia).
  split; [ reflexivity | ].
  unfold dump_body. cbn [Z.eqb Pos.eqb]. fold n. rewrite dump_hex_loop_eq.
  destruct (dump_loop_words 16 (fun b => setw 2 "0" (to_hex b)) hex_value 1
              (fun w => all_hex w = true)
              (fun b Hb => all_hex_no_space _
                             (proj1 (proj2 (setw_to_hex 2 b ltac:(lia) Hb))))
              (fun b Hb => all_hex_no_newline _
                             (proj1 (proj2 (setw_to_hex 2 b ltac:(lia) Hb))))
              (fun b Hb => proj1 (setw_to_hex 2 b ltac:(lia) Hb))
              (fun b Hb => proj2 (proj2 (proj2
                                    (setw_to_hex 2 b ltac:(lia) Hb))))
              (fun b Hb => proj1 (proj2 (setw_to_hex 2 b ltac:(lia) Hb)))
              m start end_ n start) as (W & D & L & T).
  - apply cells_bytes; try assumption; [ lia | unfold MEM_SIZE; lia ].
  - rewrite W. split; [ exact D | ]. split; [ exact L | ]. rewrite T. lia.
Qed.

Lemma dump_hex_reads_back_witness :
  let n := Z.to_nat (4095 - 4080 + 1) in
  exists body,
    dump Memory_new 4080 4095 16 = Ok (dump_header 16 ++ body)%string
    /\ map hex_value (words body) = cells Memory_new 4080 n
    /\ Forall (fun w => String.length w = 2%nat /\ all_hex w = true)
              (words body)
    /\ String.length body = (3 * n)%nat.
Proof.
  apply (dump_hex_reads_back Memory_new 4080 4095);
    [ exact Memory_new_wf | exact Memory_new_bytes | lia | lia ].
Defined.

(** A byte is the sum of its eight bits. *)
Lemma byte_bits b :
  0 <= b < 2 ^ 8 ->
  b = Z.b2z (Z.testbit b 7) * 128 + Z.b2z (Z.testbit b 6) * 64
      + Z.b2z (Z.testbit b 5) * 32 + Z.b2z (Z.testbit b 4) * 16
      + Z.b2z (Z.testbit b 3) * 8 + Z.b2z (Z.testbit b 2) * 4
      + Z.b2z (Z.testbit b 1) * 2 + Z.b2z (Z.testbit b 0).
Proof.
  intros Hb. rewrite !Z.testbit_spec' by lia.
  change (2 ^ 7) with 128. change (2 ^ 6) with 64. change (2 ^ 5) with 32.
  change (2 ^ 4) with 16. change (2 ^ 3) with 8. change (2 ^ 2) with 4.
  change (2 ^ 1) with 2. change (2 ^ 0) with 1. change (2 ^ 8) with 256 in Hb.
  Z.div_mod_to_equations. lia.
Qed.

(** What [std::bitset<8>] prints for a byte: eight characters without a
    space or a newline that denote it in base 2. *)
Lemma bitset8_byte b :
  0 <= b < 2 ^ 8 ->
  find " "%char (bitset8 b) = None
  /\ find "010"%char (bitset8 b) = None
  /\ String.length (bitset8 b) = 8%nat
  /\ bin_value (bitset8 b) = b
  /\ all_bits (bitset8 b) = true.
Proof.
  intros Hb. pose proof (byte_bits b Hb) as E. revert E.
  unfold bitset8, bin_value.
  destruct (Z.testbit b 7), (Z.testbit b 6), (Z.testbit b 5),
    (Z.testbit b 4), (Z.testbit b 3), (Z.testbit b 2), (Z.testbit b 1),
    (Z.testbit b 0); cbn; intros ->; repeat split.
Qed.

(** X23: the binary dump can be read back: for a range within the memory,
    [dump] with any format but 16 prints the header and then, for each
    cell of the range in order, the eight bits that denote it and one
    space or newline: the words of the body are eight characters each,
    all [0] or [1], and their values in base 2 are the cells. *)
Theorem dump_bin_reads_back (m : Memory) (start end_ format : Z) :
  Memory_wf m -> Memory_bytes m ->
  0 <= start <= end_ -> end_ <= 4095 -> format <> 16 ->
  let n := Z.to_nat (end_ - start + 1) in
  exists body,
    dump m start end_ format = Ok (dump_header format ++ body)%string
    /\ map bin_value (words body) = cells m start n
    /\ Forall (fun w => String.length w = 8%nat /\ all_bits w = true)
              (words body)
    /\ String.length body = (9 * n)%nat.
Proof.
  intros Hwf Hb Hs He Hf n.
  exists (dump_body m start end_ format). unfold dump.
  rewrite dump_guard by (unfold MEM_SIZE; lia).
  split; [ reflexivity | ].
  unfold dump_body. destruct (Z.eqb_spec format 16) as [ | _ ]; [ lia | ].
  fold n. rewrite dump_bin_loop_eq.
  destruct (dump_loop_words 8 bitset8 bin_value 7
              (fun w => all_bits w = true)
              (fun b Hb => proj1 (bitset8_byte b Hb))
              (fun b Hb => proj1 (proj2 (bitset8_byte b Hb)))
              (fun b Hb => proj1 (proj2 (proj2 (bitset8_byte b Hb))))
              (fun b Hb => proj1 (proj2 (proj2 (proj2 (bitset8_byte b Hb)))))
              (fun b Hb => proj2 (proj2 (proj2 (proj2 (bitset8_byte b Hb)))))
              m start end_ n start) as (W & D & L & T).
  - apply cells_bytes; try assumption; [ lia | unfold MEM_SIZE; lia ].
  - rewrite W. split; [ exact D | ]. split; [ exact L | ]. rewrite T. lia.
Qed.

Lemma dump_bin_reads_back_witness :
  let n := Z.to_nat (9 - 0 + 1) in
  exists body,
    dump Memory_new 0 9 2 = Ok (dump_header 2 ++ body)%string
    /\ map bin_value (words body) = cells Memory_new 0 n
    /\ Forall (fun w => String.length w = 8%nat /\ all_bits w = true)
              (words body)
    /\ String.length body = (9 * n)%nat.
Proof.
  apply (dump_bin_reads_back Memory_new 0 9 2);
    [ exact Memory_new_wf | exact Memory_new_bytes | lia | lia | lia ].
Defined.

(** ** debug *)

Local Open Scope string_scope.

(** A register printed by [debug]: four base-16 digits that [stoi] reads
    back as its value. *)
Lemma debug_field r :
  Register_wf r ->
  String.length (setw 4 "0" (to_hex (read r))) = 4%nat
  /\ find "010" (setw 4 "0" (to_hex (read r))) = None
  /\ stoi16 (setw 4 "0" (to_hex (read r))) = Ok (read r)
  /\ all_hex (setw 4 "0" (to_hex (read r))) = true
  /\ hex_value (setw 4 "0" (to_hex (read r))) = read r.
Proof.
  unfold Register_wf, read. intros Hr.
  destruct (setw_to_hex 4 (value r) ltac:(lia) Hr) as (L & A & Lit & V).
  split; [ exact L | ]. split; [ apply all_hex_no_newline, A | ].
  split; [ | split; [ exact A | exact V ] ].
  destruct (stoi16_hex_literal _ Lit) as [S _];
    [ rewrite V; unfold INT_MAX; lia | ].
  rewrite S, V. reflexivity.
Qed.

(** X24: [debug] prints five lines: the two rules and, between them, each
    register after its name as exactly four base-16 digits; the digits
    denote the value of the register, and the loader's own [stoi] reads
    them back as that value. *)
Theorem debug_reads_back (PC IR AC : Register) :
  Register_wf PC -> Register_wf IR -> Register_wf AC ->
  exists h1 h2 h3,
    getlines (debug PC IR AC)
    = [ "==================== DEBUG ====================";
        "PC: " ++ h1; "IR: " ++ h2; "AC: " ++ h3;
        "===============================================" ]
    /\ (String.length h1 = 4%nat /\ all_hex h1 = true
        /\ hex_value h1 = read PC /\ stoi16 h1 = Ok (read PC))
    /\ (String.length h2 = 4%nat /\ all_hex h2 = true
        /\ hex_value h2 = read IR /\ stoi16 h2 = Ok (read IR))
    /\ (String.length h3 = 4%nat /\ all_hex h3 = true
        /\ hex_value h3 = read AC /\ stoi16 h3 = Ok (read AC)).
Proof.
  intros HPC HIR HAC.
  destruct (debug_field PC HPC) as (L1 & N1 & S1 & A1 & V1).
  destruct (debug_field IR HIR) as (L2 & N2 & S2 & A2 & V2).
  destruct (debug_field AC HAC) as (L3 & N3 & S3 & A3 & V3).
  exists (setw 4 "0" (to_hex (read PC))), (setw 4 "0" (to_hex (read IR))),
    (setw 4 "0" (to_hex (read AC))).
  split; [ | repeat split; assumption ].
  unfold debug, getlines. rewrite !endl_append.
  rewrite getlines_from_line by reflexivity.
  rewrite (getlines_from_prefix "PC: ") by reflexivity.
  rewrite getlines_from_line by exact N1.
  rewrite (getlines_from_prefix "IR: ") by reflexivity.
  rewrite getlines_from_line by exact N2.
  rewrite (getlines_from_prefix "AC: ") by reflexivity.
  rewrite getlines_from_line by exact N3.
  unfold endl. rewrite getlines_from_line by reflexivity.
  reflexivity.
Qed.

Lemma debug_reads_back_witness :
  exists h1 h2 h3,
    getlines (debug (mkRegister 8) (mkRegister 4112) (mkRegister 65535))
    = [ "==================== DEBUG ====================";
        "PC: " ++ h1; "IR: " ++ h2; "AC: " ++ h3;
        "===============================================" ]
    /\ (String.length h1 = 4%nat /\ all_hex h1 = true
        /\ hex_value h1 = read (mkRegister 8)
        /\ stoi16 h1 = Ok (read (mkRegister 8)))
    /\ (String.length h2 = 4%nat /\ all_hex h2 = true
        /\ hex_value h2 = read (mkRegister 4112)
        /\ stoi16 h2 = Ok (read (mkRegister 4112)))
    /\ (String.length h3 = 4%nat /\ all_hex h3 = true
        /\ hex_value h3 = read (mkRegister 65535)
        /\ stoi16 h3 = Ok (read (mkRegister 65535))).
Proof.
  apply (debug_reads_back (mkRegister 8) (mkRegister 4112) (mkRegister 65535));
    unfold Register_wf; cbn; lia.
Defined.

Local Close Scope string_scope.

(** ** The memory as built, and what the loader does to it *)

(** X25: [Memory()] gives 4096 cells, all zero: every word of a new memory
    reads 0, and a word access is refused from address 4095 on. *)
Theorem Memory_new_zero (a : Z) :
  Memory_wf Memory_new
  /\ Memory_bytes Memory_new
  /\ (0 <= a <= 4095 -> cell Memory_new a = 0)
  /\ (0 <= a <= 4094 -> readWord Memory_new a = Ok 0)
  /\ (4095 <= a -> readWord Memory_new a = Throw OutOfRange).
Proof.
  split; [ exact Memory_new_wf | ]. split; [ exact Memory_new_bytes | ].
  split; [ | split ].
  - intros Ha. apply cell_Memory_new. unfold MEM_SIZE. lia.
  - intros Ha.
    assert (H0 : cell Memory_new a = 0)
      by (apply cell_Memory_new; unfold MEM_SIZE; lia).
    assert (H1 : cell Memory_new (a + 1) = 0)
      by (apply cell_Memory_new; unfold MEM_SIZE; lia).
    rewrite (readWord_cells Memory_new a 0 0
               ltac:(unfold MEM_SIZE; lia) H0 H1).
    reflexivity.
  - intros Ha. unfold readWord.
    rewrite out_of_range_guard by (unfold MEM_SIZE; lia). reflexivity.
Qed.

(** The loop of the loader on any lines at all: the memory keeps its
    size and its bytes, and only the words of the lines that are not
    empty, from [a] on, can have changed. *)
Lemma load_lines_footprint lines :
  forall a m r m',
    load_lines lines a m = (r, m') ->
    (Memory_wf m -> Memory_wf m')
    /\ (Memory_bytes m -> Memory_bytes m')
    /\ (forall j,
          0 <= j ->
          j < a
          \/ a + 2 * Z.of_nat
                   (length (List.filter
                              (fun l => negb (String.eqb l "")) lines)) <= j ->
          cell m' j = cell m j).
Proof.
  induction lines as [ | line rest IH ]; intros a m r m'.
  - intros [= <- <-]. repeat split; trivial.
  - cbn [load_lines List.filter].
    destruct (String.eqb line ""); cbn [negb]; [ apply IH | ].
    destruct (stoi16 _) as [v | e0];
      [ | intros [= <- <-]; repeat split; trivial ].
    cbv zeta. destruct (writeWord _ _ _) as [m1 | e1] eqn:W;
      [ | intros [= <- <-]; repeat split; trivial ].
    destruct (writeWord_inv _ _ _ _ W) as [Ha _]. unfold MEM_SIZE in Ha.
    destruct (writeWord_set_cells _ _ _ _ W) as (F1 & Wf1 & B1).
    rewrite int_small by (unfold INT_MIN, INT_MAX; lia).
    intros E. destruct (IH _ _ _ _ E) as (Wf & B & F).
    split; [ auto | ]. split; [ auto | ].
    intros j Hj Hout. cbn [length] in Hout.
    rewrite F by lia. apply F1; lia.
Qed.

(** X26: whatever the file holds, [loadProgram] leaves a memory of 4096
    bytes, and it writes no cell from twice the number of non-empty lines
    on; without the file it writes nothing. *)
Theorem loadProgram_footprint
    (m : Memory) (file : option string) (r : Result unit) (m' : Memory) :
  loadProgram m file = (r, m') ->
  (Memory_wf m -> Memory_wf m')
  /\ (Memory_bytes m -> Memory_bytes m')
  /\ (file = None -> r = Ok tt /\ m' = m)
  /\ (forall text j,
        file = Some text ->
        2 * Z.of_nat (length (List.filter (fun l => negb (String.eqb l ""))
                                          (getlines text))) <= j ->
        cell m' j = cell m j).
Proof.
  unfold loadProgram. destruct file as [text | ].
  - intros E. destruct (load_lines_footprint _ _ _ _ _ E) as (Wf & B & F).
    split; [ exact Wf | ]. split; [ exact B | ].
    split; [ discriminate | ].
    intros text' j [= <-] Hj. apply F; lia.
  - intros [= <- <-]. repeat split; trivial; intros text j [=].
Qed.

Lemma loadProgram_footprint_witness :
  let file := Some "SEA 0005

oops
ADD 0003"%string in
  let m' := snd (loadProgram Memory_new file) in
  (Memory_wf Memory_new -> Memory_wf m')
  /\ (Memory_bytes Memory_new -> Memory_bytes m')
  /\ (file = None -> Throw InvalidArgument = Ok tt /\ m' = Memory_new)
  /\ (forall text j,
        file = Some text ->
        2 * Z.of_nat (length (List.filter (fun l => negb (String.eqb l ""))
                                          (getlines text))) <= j ->
        cell m' j = cell Memory_new j).
Proof.
  intros file m'.
  apply (loadProgram_footprint Memory_new file (Throw InvalidArgument) m').
  vm_compute. reflexivity.
Defined.
